(** * genai-backend: the authentication core of [auth.py] and [main.py]

    A shallow embedding of the token, password and session code of the
    backend.  Python dictionaries are finite maps from strings to values,
    exceptions are an explicit error type, the UTC clock and the salt drawn
    by the password hasher are explicit arguments, and the SQLite table of
    users is a list of rows threaded through the handlers.

    The third-party libraries the code calls (python-jose, passlib) are
    interfaces with a stated contract: the validation python-jose runs on
    the claims of a token and the layout of a bcrypt digest are written
    out, the signature and the bcrypt function are left abstract.  A
    symbolic implementation of both shows that the contracts can be met and
    lets the handlers run. *)

From Stdlib Require Import ZArith String Ascii List Bool Lia.
From stdpp Require Import base option list gmap strings pretty.

Local Open Scope string_scope.
Local Open Scope Z_scope.

(** ** Python values, dictionaries and exceptions *)

(** The values the handlers put into dictionaries and find in the claims
    of a token: [None], booleans, integers and strings. *)
Inductive value : Type :=
| VNone
| VBool (b : bool)
| VInt (n : Z)
| VStr (s : string).

#[global] Instance value_eq_dec : EqDecision value.
Proof. solve_decision. Defined.

(** A [dict] with string keys. *)
Abbreviation dict := (gmap string value).

(** The exceptions that travel through the code.  [ExpiredSignatureError]
    and [JWTClaimsError] are subclasses of [JWTError] in jose.exceptions;
    [PasswordValueError] stands for passlib's class and its subclasses. *)
Inductive exn : Type :=
| JWTError
| ExpiredSignatureError
| JWTClaimsError
| KeyError (key : string)
| HTTPException (status_code : Z) (detail : string)
| IntegrityError
| UnknownHashError
| TypeError
| ValueError
| PasswordValueError.

(** [isinstance(e, JWTError)], what [except JWTError] tests. *)
Definition is_JWTError (e : exn) : bool :=
  match e with
  | JWTError | ExpiredSignatureError | JWTClaimsError => true
  | _ => false
  end.

(** A call either returns or raises. *)
Inductive result (A : Type) : Type :=
| Return (a : A)
| Raise (e : exn).
Arguments Return {A} a.
Arguments Raise {A} e.

(** Sequencing: an exception of the first call skips the rest. *)
#[global] Instance result_bind : MBind result := λ A B k m,
  match m with
  | Return a => k a
  | Raise e => Raise e
  end.

(** [d[key]]: a missing key raises [KeyError]. *)
Definition getitem (d : dict) (key : string) : result value :=
  match d !! key with
  | Some v => Return v
  | None => Raise (KeyError key)
  end.

(** Truth value of an optional dictionary: [None] and [{}] are false. *)
Definition truthy_payload (payload : option dict) : bool :=
  match payload with
  | None => false
  | Some d => negb (bool_decide (d = ∅))
  end.

(** Truth value of an optional string: [None] and [""] are false. *)
Definition truthy_str (s : option string) : bool :=
  match s with
  | None => false
  | Some x => negb (String.eqb x "")
  end.

(** ** auth.py: the configuration *)

Definition SECRET_KEY : string := "your-secret-key".
Definition ALGORITHM : string := "HS256".

(** ** The libraries behind [auth.py] *)

(** *** python-jose: the validation of the claims

    [jwt.decode] with the options the code leaves at their defaults (no
    audience, issuer, subject or access token given) checks the registered
    claims in this order: [iat], [nbf], [exp], [aud], [sub], [jti],
    [at_hash].  Time is the UTC clock in whole seconds, the unit of the
    time claims and of the library's comparisons.  [int_of_str] is
    Python's [int(s)] on a string: the number, or [None] for a
    [ValueError]. *)

Section claims_validation.
Variable int_of_str : string → option Z.

(** [int(v)] *)
Definition py_int (v : value) : result Z :=
  match v with
  | VNone => Raise TypeError
  | VBool b => Return (if b then 1 else 0)
  | VInt n => Return n
  | VStr s =>
      match int_of_str s with
      | Some n => Return n
      | None => Raise ValueError
      end
  end.

(** [try: int(v) except ValueError: raise JWTClaimsError]; a [TypeError]
    is not caught. *)
Definition time_claim (v : value) : result Z :=
  match py_int v with
  | Return n => Return n
  | Raise ValueError => Raise JWTClaimsError
  | Raise e => Raise e
  end.

Definition validate_iat (claims : dict) : result unit :=
  match claims !! "iat" with
  | None => Return tt
  | Some v => _ ← time_claim v; Return tt
  end.

Definition validate_nbf (now : Z) (claims : dict) : result unit :=
  match claims !! "nbf" with
  | None => Return tt
  | Some v =>
      nbf ← time_claim v;
      if now <? nbf then Raise JWTClaimsError else Return tt
  end.

Definition validate_exp (now : Z) (claims : dict) : result unit :=
  match claims !! "exp" with
  | None => Return tt
  | Some v =>
      exp ← time_claim v;
      if exp <? now then Raise ExpiredSignatureError else Return tt
  end.

(** With no audience given, a token that names an audience is refused. *)
Definition validate_aud (claims : dict) : result unit :=
  match claims !! "aud" with
  | None => Return tt
  | Some _ => Raise JWTClaimsError
  end.

Definition validate_sub (claims : dict) : result unit :=
  match claims !! "sub" with
  | None | Some (VStr _) => Return tt
  | Some _ => Raise JWTClaimsError
  end.

Definition validate_jti (claims : dict) : result unit :=
  match claims !! "jti" with
  | None | Some (VStr _) => Return tt
  | Some _ => Raise JWTClaimsError
  end.

(** With no access token given, a token that carries [at_hash] is refused. *)
Definition validate_at_hash (claims : dict) : result unit :=
  match claims !! "at_hash" with
  | None => Return tt
  | Some _ => Raise JWTClaimsError
  end.

Definition validate_claims (now : Z) (claims : dict) : result dict :=
  _ ← validate_iat claims;
  _ ← validate_nbf now claims;
  _ ← validate_exp now claims;
  _ ← validate_aud claims;
  _ ← validate_sub claims;
  _ ← validate_jti claims;
  _ ← validate_at_hash claims;
  Return claims.
End claims_validation.

(** *** python-jose: the [jwt] module

    The reading of the clock at the time of the call is the first argument
    of [jwt_decode]. *)
Class Jose : Type := {
  (** [jwt.encode(claims, key, algorithm=alg)] *)
  jwt_encode : dict → string → string → string;
  (** [jwt.decode(token, key, algorithms=algs)] *)
  jwt_decode : Z → string → string → list string → result dict;
  (** [jwt.get_unverified_claims(token)]: the claims a token carries *)
  jwt_get_unverified_claims : string → result dict;
  (** [int(s)] on a string, as the validation of a time claim calls it *)
  int_of_str : string → option Z
}.

(** What the code relies on from python-jose, with the key and the
    algorithm of the process. *)
Class JoseLaws {J : Jose} : Prop := {
  (** verifying a token that was signed with the key is validating its
      claims *)
  jwt_decode_encode : ∀ now c,
    jwt_decode now (jwt_encode c SECRET_KEY ALGORITHM) SECRET_KEY [ALGORITHM] =
      validate_claims int_of_str now c;
  (** claims are only returned after they passed the validation *)
  jwt_decode_validated : ∀ now t c,
    jwt_decode now t SECRET_KEY [ALGORITHM] = Return c →
    validate_claims int_of_str now c = Return c;
  (** the empty string is not a token *)
  jwt_decode_empty : ∀ now,
    jwt_decode now "" SECRET_KEY [ALGORITHM] = Raise JWTError;
  (** the payload of a token is the encoded claims map *)
  jwt_claims_encode : ∀ c,
    jwt_get_unverified_claims (jwt_encode c SECRET_KEY ALGORITHM) = Return c
}.

(** *** passlib: [CryptContext(schemes=["bcrypt"])]

    A bcrypt digest is the scheme and cost ["$2b$12$"], the 22 characters
    of the salt and the 31 characters bcrypt computes from the salt and the
    password.  The salt that [pwd_context.hash] draws is the first argument
    of [pwd_hash]. *)

(** Does the password hold a NUL character? *)
Fixpoint has_nul (p : string) : bool :=
  match p with
  | EmptyString => false
  | String c rest => Ascii.eqb c Ascii.zero || has_nul rest
  end.

(** The passwords the hasher takes: no NUL character, and no more than the
    4096 characters passlib allows. *)
Definition accepted_password (p : string) : bool :=
  negb (has_nul p) && (Z.of_nat (String.length p) <=? 4096).

(** The salts bcrypt draws: 22 characters of its base 64 alphabet, the
    last of which holds four bits only. *)
Definition salt_char (c : ascii) : bool :=
  let n := N_of_ascii c in
  ((46 <=? n) && (n <=? 57) || (65 <=? n) && (n <=? 90) || (97 <=? n) && (n <=? 122))%N.

Fixpoint salt_chars (s : string) : bool :=
  match s with
  | EmptyString => true
  | String c rest => salt_char c && salt_chars rest
  end.

Definition bcrypt_salt (s : string) : bool :=
  Nat.eqb (String.length s) 22 && salt_chars s &&
  match String.get 21 s with
  | Some c => existsb (Ascii.eqb c) ["."; "O"; "e"; "u"]%char
  | None => false
  end.

Class Passlib : Type := {
  (** the 31 characters bcrypt computes from a salt and a password *)
  bcrypt_checksum : string → string → string;
  (** [pwd_context.hash(password)] with the salt of this call *)
  pwd_hash : string → string → result string;
  (** [pwd_context.verify(plain, hashed)] *)
  pwd_verify : string → string → result bool
}.

(** The digest of a password under a salt. *)
Definition bcrypt_digest {P : Passlib} (salt password : string) : string :=
  "$2b$12$" +:+ salt +:+ bcrypt_checksum salt password.

Class PasslibLaws {P : Passlib} : Prop := {
  (** a password that is not accepted is refused with
      [PasswordValueError] *)
  pwd_hash_refused : ∀ salt p,
    accepted_password p = false → pwd_hash salt p = Raise PasswordValueError;
  (** an accepted password is hashed into the digest under the salt *)
  pwd_hash_digest : ∀ salt p,
    bcrypt_salt salt = true → accepted_password p = true →
    pwd_hash salt p = Return (bcrypt_digest salt p);
  (** verification computes the 31 characters again, with the salt of the
      digest, and compares *)
  pwd_verify_digest : ∀ salt p guess,
    bcrypt_salt salt = true →
    accepted_password p = true → accepted_password guess = true →
    pwd_verify guess (bcrypt_digest salt p) =
      Return (String.eqb (bcrypt_checksum salt guess) (bcrypt_checksum salt p))
}.

(** ** auth.py *)

(** The seconds, counted from 1970, that a [datetime] can hold: from the
    first second of the year 1 to the last of the year 9999.  Outside of
    them [utcnow() + timedelta(minutes=m)] raises [OverflowError]. *)
Definition datetime_range (t : Z) : Prop :=
  -62135596800 ≤ t ≤ 253402300799.

Section auth.
Context {J : Jose} {P : Passlib}.

(** [salt] is the salt that the call draws. *)
Definition hash_password (salt : string) (password : string) : result string :=
  pwd_hash salt password.

Definition verify_password (plain hashed : string) : result bool :=
  pwd_verify plain hashed.

(** [now] is the reading of [datetime.utcnow()]; the library stores the
    datetime under ["exp"] as a number of seconds.  The sum is the expiry
    the code computes while it is in [datetime_range], as it is for the
    15 minutes of the handlers at any clock reading before the last
    quarter of an hour of the year 9999. *)
Definition create_access_token (now : Z) (data : dict) (expires_minutes : Z) : string :=
  let to_encode := data in
  let expire := now + expires_minutes * 60 in
  let to_encode := <["exp" := VInt expire]> to_encode in
  jwt_encode to_encode SECRET_KEY ALGORITHM.

Definition create_refresh_token (data : dict) : string :=
  jwt_encode data SECRET_KEY ALGORITHM.

Definition decode_access_token (now : Z) (token : string) : result (option dict) :=
  match jwt_decode now token SECRET_KEY [ALGORITHM] with
  | Return claims => Return (Some claims)
  | Raise e => if is_JWTError e then Return None else Raise e
  end.

Definition decode_token (now : Z) (token : string) : result (option dict) :=
  match jwt_decode now token SECRET_KEY [ALGORITHM] with
  | Return claims => Return (Some claims)
  | Raise e => if is_JWTError e then Return None else Raise e
  end.
End auth.

(** The claims of [data] other than ["exp"], which [create_access_token]
    overwrites, pass the validation of the library at the time [now]:
    ["iat"] and ["nbf"] are numbers and ["nbf"] is not in the future,
    ["sub"] and ["jti"] are strings, there is no ["aud"] and no
    ["at_hash"]. *)
Definition claims_pass {J : Jose} (now : Z) (data : dict) : Prop :=
  validate_claims int_of_str now (delete "exp" data) = Return (delete "exp" data).

(** ** models.py *)

Module models.
(** A row of the [user] table; [id] is [None] until the store assigns it. *)
Record User : Type := {
  id : option Z;
  name : string;
  email : string;
  password : string
}.
End models.

(** ** The table of users behind the SQLModel session *)

(** The rows of the table, in insertion order. *)
Abbreviation store := (list models.User).

(** [session.exec(select(User).where(User.email == e)).first()] *)
Definition select_user_by_email (db : store) (e : string) : option models.User :=
  List.find (λ u, String.eqb (models.email u) e) db.

(** [session.get(User, user_id)] *)
Definition session_get (db : store) (user_id : Z) : option models.User :=
  List.find (λ u, bool_decide (models.id u = Some user_id)) db.

(** The key SQLite gives a row inserted without one: 1 in an empty table,
    otherwise one more than the largest key in the table.  Keys are
    integers without a bound here; the keys of SQLite are the 64 bit
    integers ([int64]), and this rule is its rule while the largest key is
    below the largest 64 bit integer ([key_available]). *)
Definition next_id (db : store) : Z :=
  match omap models.id db with
  | [] => 1
  | i :: ids => 1 + foldr Z.max i ids
  end.

(** [session.add(user); session.commit(); session.refresh(user)] for an
    object that is not in the table yet: an INSERT.  The only constraint of
    the table is its primary key. *)
Definition session_insert (db : store) (user : models.User)
  : result (models.User * store) :=
  match models.id user with
  | None =>
      let user := {| models.id := Some (next_id db); models.name := models.name user;
                     models.email := models.email user;
                     models.password := models.password user |} in
      Return (user, (db ++ [user])%list)
  | Some i =>
      if existsb (λ u, bool_decide (models.id u = Some i)) db
      then Raise IntegrityError
      else Return (user, (db ++ [user])%list)
  end.

(** [session.add(user); session.commit(); session.refresh(user)] for an
    object loaded from the table: an UPDATE of its row. *)
Definition session_update (db : store) (user : models.User) : store :=
  map (λ u, if bool_decide (models.id u = models.id user) then user else u) db.

(** ** main.py *)

(** A cookie as [response.set_cookie] records it. *)
Record Cookie : Type := {
  key : string;
  cookie_value : string;
  httponly : bool;
  secure : bool;
  samesite : string;
  max_age : Z
}.

(** A [JSONResponse]: its body and the cookies set on it. *)
Record JSONResponse : Type := {
  content : dict;
  set_cookie : list Cookie
}.

(** The part of a [Request] the handlers read. *)
Record Request : Type := {
  cookies : gmap string string
}.

Record OAuth2PasswordRequestForm : Type := {
  form_username : string;
  form_password : string
}.

(** The users CRUD handlers do not touch tokens or digests. *)

Definition create_user (user : models.User) (db : store)
  : result (string * models.User) * store :=
  match session_insert db user with
  | Return (user, db') => (Return ("User added", user), db')
  | Raise e => (Raise e, db)
  end.

Definition update_user (user_id : Z) (updated_user : models.User) (db : store)
  : result (string * models.User) * store :=
  match session_get db user_id with
  | None => (Raise (HTTPException 404 "User not found"), db)
  | Some user =>
      let user := {| models.id := models.id user;
                     models.name := models.name updated_user;
                     models.email := models.email updated_user;
                     models.password := models.password user |} in
      (Return ("User updated", user), session_update db user)
  end.

Section main.
Context {J : Jose} {P : Passlib}.

(** After the test [if not payload] the payload is a dictionary, which
    [default] unwraps. *)
Definition get_current_user (now : Z) (token : string) : result value :=
  payload ← decode_access_token now token;
  if negb (truthy_payload payload)
  then Raise (HTTPException 401 "Invalid or expired token")
  else getitem (default ∅ payload) "sub".

(** [salt] is the salt drawn by [hash_password] in this call.  An
    exception of [hash_password] leaves the handler before anything is
    written. *)
Definition signup (salt : string) (user : models.User) (db : store)
  : result dict * store :=
  match select_user_by_email db (models.email user) with
  | Some existing_user => (Raise (HTTPException 400 "User already exists"), db)
  | None =>
      match hash_password salt (models.password user) with
      | Raise e => (Raise e, db)
      | Return digest =>
          let user := {| models.id := models.id user; models.name := models.name user;
                         models.email := models.email user;
                         models.password := digest |} in
          match session_insert db user with
          | Return (user, db') => (Return {[ "msg" := VStr "User registered!" ]}, db')
          | Raise e => (Raise e, db)
          end
      end
  end.

Definition login (now : Z) (form_data : OAuth2PasswordRequestForm) (db : store)
  : result JSONResponse :=
  match select_user_by_email db (form_username form_data) with
  | None => Raise (HTTPException 401 "User not found")
  | Some user =>
      ok ← verify_password (form_password form_data) (models.password user);
      if negb ok then Raise (HTTPException 401 "Incorrect password") else
      let access_token :=
        create_access_token now {[ "sub" := VStr (models.email user) ]} 15 in
      let refresh_token :=
        create_refresh_token {[ "sub" := VStr (models.email user) ]} in
      Return {|
        content := <[ "access_token" := VStr access_token ]>
                     {[ "token_type" := VStr "bearer" ]};
        set_cookie := [ {| key := "refresh_token";
                           cookie_value := refresh_token;
                           httponly := true;
                           secure := false;
                           samesite := "strict";
                           max_age := 7 * 24 * 60 * 60 |} ]
      |}
  end.

(** The handler reads the clock twice: [now] when [decode_token] checks the
    presented token, [later] when [create_access_token] stamps the new one. *)
Definition refresh_token (now later : Z) (request : Request) : result dict :=
  let token := cookies request !! "refresh_token" in
  if negb (truthy_str token)
  then Raise (HTTPException 401 "No refresh token found") else
  payload ← decode_token now (default "" token);
  if negb (truthy_payload payload)
  then Raise (HTTPException 401 "Invalid refresh token") else
  sub ← getitem (default ∅ payload) "sub";
  let new_access_token := create_access_token later {[ "sub" := sub ]} 15 in
  Return (<[ "access_token" := VStr new_access_token ]>
            {[ "token_type" := VStr "bearer" ]}).
End main.

(** ** Vocabulary of the statements *)

(** The request that carries [token] in its refresh cookie and nothing else. *)
Definition request_with_cookie (token : string) : Request :=
  {| cookies := {[ "refresh_token" := token ]} |}.

(** The body both [login] and [refresh_token] answer with. *)
Definition token_body (access_token : string) : dict :=
  <[ "access_token" := VStr access_token ]> {[ "token_type" := VStr "bearer" ]}.

(** The number of rows that carry the email [e]. *)
Definition count_email (db : store) (e : string) : nat :=
  length (List.filter (λ u, String.eqb (models.email u) e) db).

(** No two rows share an email. *)
Definition emails_unique (db : store) : Prop := NoDup (map models.email db).

Section store_invariant.
Context {P : Passlib}.

(** The password field of a row is a digest made by [hash_password]. *)
Definition holds_digest (u : models.User) : Prop :=
  ∃ salt secret, hash_password salt secret = Return (models.password u).

(** The invariant of the credential store. *)
Definition store_invariant (db : store) : Prop :=
  emails_unique db ∧ Forall holds_digest db.

(** The tables that sign-ups alone build from the empty table. *)
Inductive signed_up : store → Prop :=
| signed_up_empty : signed_up []
| signed_up_signup (salt : string) (user : models.User) (db db' : store)
    (r : result dict) :
    signed_up db → signup salt user db = (r, db') → signed_up db'.
End store_invariant.

(** ** A symbolic implementation of the two libraries

    Tokens and digests are strings with a self-delimiting layout, so that
    they can be taken apart again.  A token records its algorithm, its claims
    and the key that signed it; a digest has the layout of a bcrypt digest,
    with characters of the password in the place of the 31 that bcrypt
    computes.  The layout stands for the cryptography: nothing here is
    secret, the implementation only has to satisfy the contracts. *)

Module symbolic.

(** Every encoder prepends to the string [r] that follows. *)

Fixpoint enc_pos (p : positive) (r : string) : string :=
  match p with
  | xH => String "." r
  | xO q => String "0" (enc_pos q r)
  | xI q => String "1" (enc_pos q r)
  end.

Fixpoint dec_pos (s : string) : option (positive * string) :=
  match s with
  | EmptyString => None
  | String c r =>
      if Ascii.eqb c "." then Some (xH, r)
      else if Ascii.eqb c "0" then '(q, r') ← dec_pos r; Some (xO q, r')
      else if Ascii.eqb c "1" then '(q, r') ← dec_pos r; Some (xI q, r')
      else None
  end.

Definition enc_Z (z : Z) (r : string) : string :=
  match z with
  | Z0 => String "z" r
  | Zpos p => String "+" (enc_pos p r)
  | Zneg p => String "-" (enc_pos p r)
  end.

Definition dec_Z (s : string) : option (Z * string) :=
  match s with
  | EmptyString => None
  | String c r =>
      if Ascii.eqb c "z" then Some (Z0, r)
      else if Ascii.eqb c "+" then '(p, r') ← dec_pos r; Some (Zpos p, r')
      else if Ascii.eqb c "-" then '(p, r') ← dec_pos r; Some (Zneg p, r')
      else None
  end.

(** The first [n] characters of [s] and what follows them. *)
Fixpoint split_at (n : nat) (s : string) : option (string * string) :=
  match n, s with
  | O, _ => Some (EmptyString, s)
  | S n, EmptyString => None
  | S n, String c r => '(a, b) ← split_at n r; Some (String c a, b)
  end.

(** A string is its length followed by its characters. *)
Definition enc_str (s : string) (r : string) : string :=
  enc_Z (Z.of_nat (String.length s)) (s +:+ r).

Definition dec_str (s : string) : option (string * string) :=
  '(n, r) ← dec_Z s; split_at (Z.to_nat n) r.

Definition enc_value (v : value) (r : string) : string :=
  match v with
  | VNone => String "n" r
  | VBool b => String "b" (String (if b then "1" else "0")%char r)
  | VInt n => String "i" (enc_Z n r)
  | VStr s => String "s" (enc_str s r)
  end.

Definition dec_value (s : string) : option (value * string) :=
  match s with
  | EmptyString => None
  | String c r =>
      if Ascii.eqb c "n" then Some (VNone, r)
      else if Ascii.eqb c "b" then
        match r with
        | EmptyString => None
        | String d r' =>
            if Ascii.eqb d "1" then Some (VBool true, r')
            else if Ascii.eqb d "0" then Some (VBool false, r')
            else None
        end
      else if Ascii.eqb c "i" then '(n, r') ← dec_Z r; Some (VInt n, r')
      else if Ascii.eqb c "s" then '(x, r') ← dec_str r; Some (VStr x, r')
      else None
  end.

Fixpoint enc_items (l : list (string * value)) (r : string) : string :=
  match l with
  | [] => r
  | (k, v) :: l => enc_str k (enc_value v (enc_items l r))
  end.

Fixpoint dec_items (n : nat) (s : string) : option (list (string * value) * string) :=
  match n with
  | O => Some ([], s)
  | S n =>
      '(k, r) ← dec_str s;
      '(v, r) ← dec_value r;
      '(l, r) ← dec_items n r;
      Some ((k, v) :: l, r)
  end.

(** A dictionary is the number of its items followed by the items. *)
Definition enc_dict (d : dict) (r : string) : string :=
  let l := map_to_list d in
  enc_Z (Z.of_nat (length l)) (enc_items l r).

Definition dec_dict (s : string) : option (dict * string) :=
  '(n, r) ← dec_Z s;
  '(l, r) ← dec_items (Z.to_nat n) r;
  Some (list_to_map l, r).

(** The three segments of a compact token: the header with the
    algorithm, the claims, and the signature, which names its key. *)
Definition parse_token (t : string) : option (string * dict * string) :=
  '(a, r) ← dec_str t;
  '(c, r) ← dec_dict r;
  '(k, r) ← dec_str r;
  if String.eqb r "" then Some (a, c, k) else None.

(** [int(s)] on a string of ASCII characters: blanks around a numeral
    with an optional sign, whose digits may be grouped by single
    underscores. *)
Definition is_blank (c : ascii) : bool :=
  let n := N_of_ascii c in
  ((9 <=? n) && (n <=? 13))%N || (n =? 32)%N.

Definition digit_of (c : ascii) : option Z :=
  let n := N_of_ascii c in
  if ((48 <=? n) && (n <=? 57))%N then Some (Z.of_N n - 48) else None.

Fixpoint all_blank (s : string) : bool :=
  match s with
  | EmptyString => true
  | String c r => is_blank c && all_blank r
  end.

(** The digits after the first one; [grouped] says that the last
    character was an underscore. *)
Fixpoint digits (grouped : bool) (acc : Z) (s : string) : option Z :=
  match s with
  | EmptyString => if grouped then None else Some acc
  | String c r =>
      match digit_of c with
      | Some d => digits false (10 * acc + d) r
      | None =>
          if grouped then None
          else if Ascii.eqb c "_" then digits true acc r
          else if all_blank s then Some acc
          else None
      end
  end.

Definition numeral (s : string) : option Z :=
  match s with
  | EmptyString => None
  | String c r =>
      match digit_of c with
      | Some d => digits false d r
      | None => None
      end
  end.

Definition signed_numeral (s : string) : option Z :=
  match s with
  | String "-" r => Z.opp <$> numeral r
  | String "+" r => numeral r
  | _ => numeral s
  end.

Fixpoint parse_int (s : string) : option Z :=
  match s with
  | EmptyString => None
  | String c r => if is_blank c then parse_int r else signed_numeral s
  end.

Definition encode (c : dict) (k a : string) : string :=
  enc_str a (enc_dict c (enc_str k "")).

Definition decode (now : Z) (t k : string) (algs : list string) : result dict :=
  match parse_token t with
  | None => Raise JWTError
  | Some (a, c, k') =>
      if negb (bool_decide (a ∈ algs)) then Raise JWTError
      else if negb (String.eqb k' k) then Raise JWTError
      else validate_claims parse_int now c
  end.

Definition get_unverified_claims (t : string) : result dict :=
  match parse_token t with
  | None => Raise JWTError
  | Some (_, c, _) => Return c
  end.

Definition jose : Jose := {|
  jwt_encode := encode;
  jwt_decode := decode;
  jwt_get_unverified_claims := get_unverified_claims;
  int_of_str := parse_int
|}.

(** The 31 characters of a digest: the password, cut or filled up to
    that length. *)
Fixpoint fill (n : nat) (p : string) : string :=
  match n with
  | O => ""
  | S n =>
      match p with
      | EmptyString => String "." (fill n "")
      | String c r => String c (fill n r)
      end
  end.

Definition checksum (salt p : string) : string := fill 31 p.

Definition bcrypt_hash (salt p : string) : result string :=
  if accepted_password p
  then Return ("$2b$12$" +:+ salt +:+ checksum salt p)
  else Raise PasswordValueError.

(** The hasher is found by the scheme of the digest; then the size of the
    password is checked, the digest is parsed, and the password is
    hashed with the salt of the digest. *)
Definition bcrypt_verify (plain hashed : string) : result bool :=
  match hashed with
  | String "$" (String "2" (String "b" (String "$" r))) =>
      if negb (Z.of_nat (String.length plain) <=? 4096) then Raise PasswordValueError
      else
        match r with
        | String "1" (String "2" (String "$" r)) =>
            match split_at 22 r with
            | Some (salt, chk) =>
                if negb (Nat.eqb (String.length chk) 31) then Raise ValueError
                else if has_nul plain then Raise PasswordValueError
                else Return (String.eqb (checksum salt plain) chk)
            | None => Raise ValueError
            end
        | _ => Raise ValueError
        end
  | _ => Raise UnknownHashError
  end.

Definition passlib : Passlib := {|
  bcrypt_checksum := checksum;
  pwd_hash := bcrypt_hash;
  pwd_verify := bcrypt_verify
|}.

End symbolic.

(** ** Concrete rows, requests and tokens *)

Module scenario.

Definition alice : models.User :=
  {| models.id := Some 1; models.name := "Alice"; models.email := "a@x.com";
     models.password :=
       "$2b$12$N9qo8uLOickgx2ZMRZoMyecorrect horse.................." |}.

Definition bob : models.User :=
  {| models.id := Some 2; models.name := "Bob"; models.email := "b@x.com";
     models.password :=
       "$2b$12$EixZaYVK1fsbw1ZfbX3OXebattery staple................." |}.

(** The body of the [POST /signup] request that made Alice's row. *)
Definition alice_body : models.User :=
  {| models.id := None; models.name := "Alice"; models.email := "a@x.com";
     models.password := "correct horse" |}.

(** The body of a [POST /users] request that reuses Alice's email. *)
Definition eve : models.User :=
  {| models.id := None; models.name := "Eve"; models.email := "a@x.com";
     models.password := "hunter2" |}.

(** The row that request leaves in the table. *)
Definition eve_row : models.User :=
  {| models.id := Some 2; models.name := "Eve"; models.email := "a@x.com";
     models.password := "hunter2" |}.

(** The body of a [PUT /users/2] request that moves Bob to Alice's email. *)
Definition bob_update : models.User :=
  {| models.id := None; models.name := "Bob"; models.email := "a@x.com";
     models.password := "" |}.

Definition bob_row : models.User :=
  {| models.id := Some 2; models.name := "Bob"; models.email := "a@x.com";
     models.password :=
       "$2b$12$EixZaYVK1fsbw1ZfbX3OXebattery staple................." |}.

Definition alice_form : OAuth2PasswordRequestForm :=
  {| form_username := "a@x.com"; form_password := "correct horse" |}.

(** A token signed with the process secret whose claims map is empty. *)
Definition empty_token : string := create_refresh_token (J := symbolic.jose) ∅.

(** A token signed with the process secret that names no subject. *)
Definition anonymous_token : string :=
  create_refresh_token (J := symbolic.jose) {[ "role" := VStr "admin" ]}.

End scenario.

(** ** main.py: the remaining user handlers *)

(** [session.delete(user); session.commit()]: a DELETE of the row with the
    key of [user]. *)
Definition session_delete (db : store) (user : models.User) : store :=
  List.filter (λ u, negb (bool_decide (models.id u = models.id user))) db.




Definition get_user (user_id : Z) (db : store) : result models.User :=
  match session_get db user_id with
  | Some user => Return user
  | None => Raise (HTTPException 404 "User not found")
  end.

Definition delete_user (user_id : Z) (db : store) : result dict * store :=
  match session_get db user_id with
  | None => (Raise (HTTPException 404 "User not found"), db)
  | Some user => (Return {[ "msg" := VStr "User deleted" ]}, session_delete db user)
  end.

(** The keys of the rows of the table. *)
Definition keys (db : store) : list Z := omap models.id db.

(** The integers that SQLite stores as a key and that the driver takes as
    a parameter: outside of them the driver raises [OverflowError]. *)
Definition int64 (z : Z) : Prop :=
  -9223372036854775808 ≤ z ≤ 9223372036854775807.


(** What the primary key constraint maintains: every row has a key and no
    two rows share one. *)
Definition table_ok (db : store) : Prop :=
  Forall (λ u, is_Some (models.id u)) db ∧ NoDup (keys db).

(** ** main.py: the protected profile *)

(** [str(v)], as the f-string of [protected_profile] formats the principal. *)
Definition py_str (v : value) : string :=
  match v with
  | VNone => "None"
  | VBool true => "True"
  | VBool false => "False"
  | VInt n => pretty n
  | VStr s => s
  end.

Section profile.
Context {J : Jose}.

(** [current_user] is the result of the dependency [get_current_user]; its
    exception is the answer of the route. *)
Definition protected_profile (now : Z) (token : string) : result dict :=
  current_user ← get_current_user now token;
  Return {[ "msg" := VStr ("Hello, " +:+ py_str current_user +:+
                           "! This is a protected route.") ]}.
End profile.

(** ** models.py: conversations and messages *)

Module conversation.
(** A row of the [conversation] table; [created_at] is the reading of the
    clock when the object was made. *)
Record Conversation : Type := {
  id : option Z;
  title : string;
  user_id : string;
  created_at : Z
}.
End conversation.

Module message.
(** A row of the [message] table. *)
Record Message : Type := {
  id : option Z;
  content : string;
  role : string;
  conversation_id : Z
}.
End message.

(** The two tables behind the conversation handlers, in insertion order. *)
Record chat_tables : Type := {
  conversations : list conversation.Conversation;
  messages : list message.Message
}.

(** The key SQLite gives a row inserted without one into a table whose
    keys are [ks]; [next_id] is this rule on the table of users. *)
Definition next_key (ks : list Z) : Z :=
  match ks with
  | [] => 1
  | i :: ids => 1 + foldr Z.max i ids
  end.

(** ** main.py: conversations *)

(** The body of [POST /save-conversation], read at the types of the
    columns it fills: a key may be missing from an object, a value that is
    there is a string (a list of message objects under ["messages"]). *)
Record MessageItem : Type := {
  item_content : option string;
  item_role : option string
}.

Record ConversationData : Type := {
  data_title : option string;
  data_messages : option (list MessageItem)
}.

(** The loop over [data["messages"]]: the [Message] objects it adds to the
    session, up to the first object with a missing key. *)
Fixpoint new_messages (conversation_id : Z) (items : list MessageItem)
  : result (list message.Message) :=
  match items with
  | [] => Return []
  | msg :: rest =>
      match item_content msg with
      | None => Raise (KeyError "content")
      | Some content =>
          match item_role msg with
          | None => Raise (KeyError "role")
          | Some role =>
              ms ← new_messages conversation_id rest;
              Return ({| message.id := None; message.content := content;
                         message.role := role;
                         message.conversation_id := conversation_id |} :: ms)
          end
      end
  end.

(** The commit of the added messages: each is inserted in the order it was
    added and gets the next key of the table. *)
Fixpoint insert_messages (table : list message.Message) (ms : list message.Message)
  : list message.Message :=
  match ms with
  | [] => table
  | m :: rest =>
      let row := {| message.id := Some (next_key (omap message.id table));
                    message.content := message.content m;
                    message.role := message.role m;
                    message.conversation_id := message.conversation_id m |} in
      insert_messages (table ++ [row]) rest
  end.

(** [user] is the principal that the dependency [get_current_user] gave;
    [now] is the clock when the [Conversation] object is made.  The
    conversation is committed before the messages are read; an exception
    in the loop discards the messages added so far. *)
Definition save_conversation (now : Z) (data : ConversationData) (user : string)
    (t : chat_tables) : result dict * chat_tables :=
  match data_title data with
  | None => (Raise (KeyError "title"), t)
  | Some title =>
      let convo_id := next_key (omap conversation.id (conversations t)) in
      let convo := {| conversation.id := Some convo_id;
                      conversation.title := title;
                      conversation.user_id := user;
                      conversation.created_at := now |} in
      let t := {| conversations := (conversations t ++ [convo])%list;
                  messages := messages t |} in
      match data_messages data with
      | None => (Raise (KeyError "messages"), t)
      | Some items =>
          match new_messages convo_id items with
          | Raise e => (Raise e, t)
          | Return ms =>
              (Return {[ "msg" := VStr "Conversation saved" ]},
               {| conversations := conversations t;
                  messages := insert_messages (messages t) ms |})
          end
      end
  end.

(** An entry of the list [get_conversations] returns; a message is its
    role and its content. *)
Record ConversationOut : Type := {
  out_id : option Z;
  out_title : string;
  out_created_at : Z;
  out_messages : list (string * string)
}.

(** [select(Message).where(Message.conversation_id == convo.id)] *)
Definition messages_of (t : chat_tables) (convo : conversation.Conversation)
  : list message.Message :=
  List.filter (λ m, bool_decide (Some (message.conversation_id m) = conversation.id convo))
    (messages t).

Definition get_conversations (user : string) (t : chat_tables) : list ConversationOut :=
  let convos :=
    List.filter (λ c, String.eqb (conversation.user_id c) user) (conversations t) in
  map (λ convo,
         {| out_id := conversation.id convo;
            out_title := conversation.title convo;
            out_created_at := conversation.created_at convo;
            out_messages :=
              map (λ m, (message.role m, message.content m)) (messages_of t convo) |})
      convos.

(** The keys of the conversations of the tables. *)
Definition conversation_keys (t : chat_tables) : list Z :=
  omap conversation.id (conversations t).

(** Every conversation has a key, no two share one, and every message
    belongs to a conversation of the table. *)
Definition chat_ok (t : chat_tables) : Prop :=
  Forall (λ c, is_Some (conversation.id c)) (conversations t) ∧
  NoDup (conversation_keys t) ∧
  Forall (λ m, message.conversation_id m ∈ conversation_keys t) (messages t).

(** A message object that has both of its keys. *)
Definition complete (msg : MessageItem) : Prop :=
  is_Some (item_content msg) ∧ is_Some (item_role msg).

(** A message object with both of its keys. *)
Definition message_item (content role : string) : MessageItem :=
  {| item_content := Some content; item_role := Some role |}.

(** The columns of a message that the body decides. *)
Definition message_payload (m : message.Message) : string * string * Z :=
  (message.content m, message.role m, message.conversation_id m).

(** The tables after [save_conversation]: the new conversation at the end
    of its table, and the rows [rows] at the end of the messages. *)
Definition saved (now : Z) (title user : string) (t : chat_tables)
    (rows : list message.Message) : chat_tables :=
  {| conversations :=
       (conversations t ++
        [{| conversation.id := Some (next_key (conversation_keys t));
            conversation.title := title;
            conversation.user_id := user;
            conversation.created_at := now |}])%list;
     messages := (messages t ++ rows)%list |}.

(** The view [get_conversations] gives of a conversation. *)
Definition conversation_out (t : chat_tables) (convo : conversation.Conversation)
  : ConversationOut :=
  {| out_id := conversation.id convo;
     out_title := conversation.title convo;
     out_created_at := conversation.created_at convo;
     out_messages := map (λ m, (message.role m, message.content m)) (messages_of t convo) |}.

(** ** More rows, bodies and tables *)

Module scenario_more.
Import scenario.

(** A body for [POST /users] with the key of Alice's row. *)
Definition mallory : models.User :=
  {| models.id := Some 1; models.name := "Mallory"; models.email := "m@x.com";
     models.password := "letmein" |}.

(** A body for [PUT /users/2] that renames Bob and carries a password. *)
Definition robert_update : models.User :=
  {| models.id := Some 9; models.name := "Robert"; models.email := "r@x.com";
     models.password := "ignored" |}.

(** Bob's row after that update. *)
Definition robert_row : models.User :=
  {| models.id := Some 2; models.name := "Robert"; models.email := "r@x.com";
     models.password :=
       "$2b$12$EixZaYVK1fsbw1ZfbX3OXebattery staple................." |}.

(** A sign-up body whose password holds a NUL character. *)
Definition nul_body : models.User :=
  {| models.id := None; models.name := "Nul"; models.email := "n@x.com";
     models.password := String "a" (String Ascii.zero "b") |}.


(** The response to Alice's login at second 1000. *)
Definition alice_response : JSONResponse :=
  {| content := token_body (create_access_token (J := symbolic.jose) 1000
                              {[ "sub" := VStr "a@x.com" ]} 15);
     set_cookie :=
       [ {| key := "refresh_token";
            cookie_value := create_refresh_token (J := symbolic.jose)
                              {[ "sub" := VStr "a@x.com" ]};
            httponly := true;
            secure := false;
            samesite := "strict";
            max_age := 604800 |} ] |}.

(** Tables with one conversation of Alice and its two messages. *)
Definition chat : chat_tables :=
  {| conversations :=
       [ {| conversation.id := Some 1; conversation.title := "Greetings";
            conversation.user_id := "a@x.com"; conversation.created_at := 900 |} ];
     messages :=
       [ {| message.id := Some 1; message.content := "Hi"; message.role := "user";
            message.conversation_id := 1 |};
         {| message.id := Some 2; message.content := "Hello!"; message.role := "assistant";
            message.conversation_id := 1 |} ] |}.

(** A body whose second message object has no role. *)
Definition broken_body : ConversationData :=
  {| data_title := Some "Plans";
     data_messages := Some [ message_item "What now?" "user";
                             {| item_content := Some "Wait"; item_role := None |} ] |}.

End scenario_more.

(** * Theorems *)

(** ** The validation of the claims *)

Section validation_facts.
Variable int_of_str : string → option Z.

(** The validation returns the claims it was given. *)
Lemma validate_claims_returns (now : Z) (c c' : dict) :
  validate_claims int_of_str now c = Return c' → c' = c.
Proof.
  unfold validate_claims.
  destruct (validate_iat _ c); [| discriminate].
  destruct (validate_nbf _ now c); [| discriminate].
  destruct (validate_exp _ now c); [| discriminate].
  destruct (validate_aud c); [| discriminate].
  destruct (validate_sub c); [| discriminate].
  destruct (validate_jti c); [| discriminate].
  destruct (validate_at_hash c); [| discriminate].
  simpl. intros [= <-]. reflexivity.
Qed.


(** The claims that [login] signs into a refresh token. *)
Lemma validate_claims_subject (now : Z) (email : string) :
  validate_claims int_of_str now {[ "sub" := VStr email ]} =
    Return {[ "sub" := VStr email ]}.
Proof. reflexivity. Qed.

(** The empty claims map. *)
Lemma validate_claims_empty (now : Z) :
  validate_claims int_of_str now ∅ = Return ∅.
Proof. reflexivity. Qed.

(** The claims of an access token: the validation of [data] with the
    check of the expiry that [create_access_token] wrote in place of any
    [exp] of [data]. *)
Lemma validate_claims_insert_exp (now exp : Z) (data : dict) :
  validate_claims int_of_str now (<["exp" := VInt exp]> data) =
    (_ ← validate_iat int_of_str data;
     _ ← validate_nbf int_of_str now data;
     _ ← (if exp <? now then Raise ExpiredSignatureError else Return tt);
     _ ← validate_aud data;
     _ ← validate_sub data;
     _ ← validate_jti data;
     _ ← validate_at_hash data;
     Return (<["exp" := VInt exp]> data)).
Proof.
  unfold validate_claims, validate_iat, validate_nbf, validate_exp, validate_aud,
    validate_sub, validate_jti, validate_at_hash.
  rewrite lookup_insert_eq.
  rewrite !lookup_insert_ne by discriminate. reflexivity.
Qed.

(** The claims other than [exp] pass the validation at [now]. *)
Lemma validate_claims_delete_exp (now : Z) (data : dict) :
  validate_claims int_of_str now (delete "exp" data) = Return (delete "exp" data) →
  validate_iat int_of_str data = Return tt ∧
  validate_nbf int_of_str now data = Return tt ∧
  validate_aud data = Return tt ∧
  validate_sub data = Return tt ∧
  validate_jti data = Return tt ∧
  validate_at_hash data = Return tt.
Proof.
  intros Hvalid. unfold validate_claims in Hvalid.
  replace (validate_iat int_of_str (delete "exp" data))
    with (validate_iat int_of_str data) in Hvalid
    by (unfold validate_iat; rewrite lookup_delete_ne by discriminate; reflexivity).
  replace (validate_nbf int_of_str now (delete "exp" data))
    with (validate_nbf int_of_str now data) in Hvalid
    by (unfold validate_nbf; rewrite lookup_delete_ne by discriminate; reflexivity).
  replace (validate_aud (delete "exp" data)) with (validate_aud data) in Hvalid
    by (unfold validate_aud; rewrite lookup_delete_ne by discriminate; reflexivity).
  replace (validate_sub (delete "exp" data)) with (validate_sub data) in Hvalid
    by (unfold validate_sub; rewrite lookup_delete_ne by discriminate; reflexivity).
  replace (validate_jti (delete "exp" data)) with (validate_jti data) in Hvalid
    by (unfold validate_jti; rewrite lookup_delete_ne by discriminate; reflexivity).
  replace (validate_at_hash (delete "exp" data)) with (validate_at_hash data) in Hvalid
    by (unfold validate_at_hash; rewrite lookup_delete_ne by discriminate; reflexivity).
  destruct (validate_iat _ data) as [[] |]; [| discriminate].
  destruct (validate_nbf _ now data) as [[] |]; [| discriminate].
  destruct (validate_exp _ now _) as [[] |]; [| discriminate].
  destruct (validate_aud data) as [[] |]; [| discriminate].
  destruct (validate_sub data) as [[] |]; [| discriminate].
  destruct (validate_jti data) as [[] |]; [| discriminate].
  destruct (validate_at_hash data) as [[] |]; [| discriminate].
  repeat split.
Qed.
End validation_facts.

(** A salt has 22 characters. *)
Lemma bcrypt_salt_length (salt : string) :
  bcrypt_salt salt = true → String.length salt = 22%nat.
Proof.
  unfold bcrypt_salt. intros H. apply andb_prop in H as [H _].
  apply andb_prop in H as [H _]. apply Nat.eqb_eq. exact H.
Qed.

(** ** The symbolic libraries meet their contracts *)

Module symbolic_facts.
Import symbolic.

Lemma dec_enc_pos (p : positive) (r : string) : dec_pos (enc_pos p r) = Some (p, r).
Proof. induction p as [q IH | q IH |]; simpl; [rewrite IH | rewrite IH |]; reflexivity. Qed.

Lemma dec_enc_Z (z : Z) (r : string) : dec_Z (enc_Z z r) = Some (z, r).
Proof. destruct z; simpl; [| rewrite dec_enc_pos ..]; reflexivity. Qed.

Lemma split_at_app (s r : string) : split_at (String.length s) (s +:+ r) = Some (s, r).
Proof. induction s as [| c s IH]; simpl; [| rewrite IH]; reflexivity. Qed.

Lemma dec_enc_str (s r : string) : dec_str (enc_str s r) = Some (s, r).
Proof.
  unfold dec_str, enc_str. rewrite dec_enc_Z. simpl.
  rewrite Nat2Z.id. apply split_at_app.
Qed.

Lemma dec_enc_value (v : value) (r : string) : dec_value (enc_value v r) = Some (v, r).
Proof.
  destruct v as [| [] | n | s]; simpl; try reflexivity.
  - rewrite dec_enc_Z. reflexivity.
  - rewrite dec_enc_str. reflexivity.
Qed.

Lemma dec_enc_items (l : list (string * value)) (r : string) :
  dec_items (length l) (enc_items l r) = Some (l, r).
Proof.
  induction l as [| [k v] l IH]; simpl; [reflexivity |].
  rewrite dec_enc_str. simpl. rewrite dec_enc_value. simpl.
  rewrite IH. reflexivity.
Qed.

Lemma dec_enc_dict (d : dict) (r : string) : dec_dict (enc_dict d r) = Some (d, r).
Proof.
  unfold dec_dict, enc_dict. rewrite dec_enc_Z. simpl.
  rewrite Nat2Z.id, dec_enc_items. simpl.
  rewrite list_to_map_to_list. reflexivity.
Qed.

Lemma parse_encode (c : dict) (k a : string) : parse_token (encode c k a) = Some (a, c, k).
Proof.
  unfold parse_token, encode. rewrite dec_enc_str. simpl.
  rewrite dec_enc_dict. simpl. rewrite dec_enc_str. reflexivity.
Qed.

Lemma decode_encode (now : Z) (c : dict) (k a : string) :
  decode now (encode c k a) k [a] = validate_claims parse_int now c.
Proof.
  unfold decode. rewrite parse_encode.
  rewrite bool_decide_true by (apply list_elem_of_singleton; reflexivity).
  rewrite String.eqb_refl. reflexivity.
Qed.

Lemma jose_laws : @JoseLaws jose.
Proof.
  split; simpl.
  - intros now c. apply decode_encode.
  - intros now t c. unfold decode.
    destruct (parse_token t) as [[[a c'] k'] |]; [| discriminate].
    destruct (negb _); [discriminate |].
    destruct (negb _); [discriminate |].
    intros Hvalid. pose proof (validate_claims_returns _ _ _ _ Hvalid) as ->.
    exact Hvalid.
  - reflexivity.
  - intros c. unfold get_unverified_claims. rewrite parse_encode. reflexivity.
Qed.

Lemma fill_length (n : nat) (p : string) : String.length (fill n p) = n.
Proof.
  revert p. induction n as [| n IH]; intros p; [reflexivity |].
  destruct p; simpl; rewrite IH; reflexivity.
Qed.

Lemma accepted_password_size (p : string) :
  accepted_password p = true → (Z.of_nat (String.length p) <=? 4096) = true.
Proof. unfold accepted_password. intros H. apply andb_prop in H. tauto. Qed.

Lemma accepted_password_no_nul (p : string) :
  accepted_password p = true → has_nul p = false.
Proof.
  unfold accepted_password. intros H. apply andb_prop in H as [H _].
  apply negb_true_iff in H. exact H.
Qed.

(** Verification against a digest of the hasher. *)
Lemma bcrypt_verify_digest (salt chk plain : string) :
  String.length salt = 22%nat → String.length chk = 31%nat →
  accepted_password plain = true →
  bcrypt_verify plain ("$2b$12$" +:+ salt +:+ chk) =
    Return (String.eqb (checksum salt plain) chk).
Proof.
  intros Hsalt Hchk Hplain.
  change (bcrypt_verify plain ("$2b$12$" +:+ salt +:+ chk)) with
    (if negb (Z.of_nat (String.length plain) <=? 4096) then Raise PasswordValueError
     else match split_at 22 (salt +:+ chk) with
          | Some (salt, chk) =>
              if negb (Nat.eqb (String.length chk) 31) then Raise ValueError
              else if has_nul plain then Raise PasswordValueError
              else Return (String.eqb (checksum salt plain) chk)
          | None => Raise ValueError
          end).
  rewrite (accepted_password_size _ Hplain). cbn [negb].
  rewrite <- Hsalt at 1. rewrite split_at_app, Hchk.
  rewrite (accepted_password_no_nul _ Hplain). reflexivity.
Qed.

Lemma passlib_laws : @PasslibLaws passlib.
Proof.
  split.
  - intros salt p Hp. cbn [pwd_hash passlib]. unfold bcrypt_hash.
    rewrite Hp. reflexivity.
  - intros salt p Hsalt Hp. cbn [pwd_hash passlib]. unfold bcrypt_hash.
    rewrite Hp. reflexivity.
  - intros salt p guess Hsalt Hp Hguess.
    unfold bcrypt_digest. cbn [pwd_verify bcrypt_checksum passlib].
    apply bcrypt_verify_digest;
      [apply bcrypt_salt_length; assumption | apply fill_length | assumption].
Qed.

End symbolic_facts.

(** ** The token issuer and verifier *)

(** Settles the test [exp <? now] of the verifier from the arithmetic
    facts at hand. *)
Ltac not_expired := rewrite (proj2 (Z.ltb_ge _ _)) by lia.
Ltac expired := rewrite (proj2 (Z.ltb_lt _ _)) by lia.

Section token_facts.
Context {J : Jose} {JL : JoseLaws}.

(** Verification of a token signed with the key of the process: the
    validation of its claims, with the library's own exceptions turned
    into [None]. *)
Lemma decode_signed (now : Z) (claims : dict) :
  decode_token now (jwt_encode claims SECRET_KEY ALGORITHM) =
    match validate_claims int_of_str now claims with
    | Return claims => Return (Some claims)
    | Raise e => if is_JWTError e then Return None else Raise e
    end.
Proof. unfold decode_token. rewrite jwt_decode_encode. reflexivity. Qed.

(** The claims that [login] signs pass the validation. *)
Lemma claims_pass_subject (now : Z) (email : string) :
  claims_pass now {[ "sub" := VStr email ]}.
Proof.
  unfold claims_pass. rewrite delete_singleton_ne by discriminate. reflexivity.
Qed.

(** What verification of a token from [create_access_token] gives. *)
Lemma decode_created_access_token (data : dict) (issued now minutes : Z) :
  claims_pass now data →
  decode_access_token now (create_access_token issued data minutes) =
    if issued + minutes * 60 <? now then Return None
    else Return (Some (<["exp" := VInt (issued + minutes * 60)]> data)).
Proof.
  intros Hpass. unfold decode_access_token, create_access_token.
  rewrite jwt_decode_encode, validate_claims_insert_exp.
  destruct (validate_claims_delete_exp _ _ _ Hpass)
    as (-> & -> & -> & -> & -> & ->).
  destruct (issued + minutes * 60 <? now); reflexivity.
Qed.

(** Verification of a token from [create_refresh_token] whose claims pass
    the validation. *)
Lemma decode_created_refresh_token (data : dict) (now : Z) :
  validate_claims int_of_str now data = Return data →
  decode_token now (create_refresh_token data) = Return (Some data).
Proof.
  intros Hvalid. unfold create_refresh_token. rewrite decode_signed, Hvalid.
  reflexivity.
Qed.

(** A verifier only answers tokens that are not the empty string. *)
Lemma decode_token_nonempty (now : Z) (token : string) (payload : dict) :
  decode_token now token = Return (Some payload) → token ≠ "".
Proof.
  intros Hdec ->. unfold decode_token in Hdec.
  rewrite jwt_decode_empty in Hdec. discriminate.
Qed.



(** C3 as amended: an access token issued with a 15 minute lifetime, whose
    other claims pass the validation of the library at the time of the
    check, verifies, giving its claims, at every clock reading before
    issuance plus 15 minutes, and verification gives [None] at every
    clock reading after it. *)
Theorem access_token_ttl (data : dict) (issued now : Z) :
  claims_pass now data →
  (now < issued + 15 * 60 →
     decode_access_token now (create_access_token issued data 15) =
       Return (Some (<["exp" := VInt (issued + 15 * 60)]> data))) ∧
  (issued + 15 * 60 < now →
     decode_access_token now (create_access_token issued data 15) = Return None).
Proof.
  intros Hpass. rewrite decode_created_access_token by assumption.
  split; intros Hnow.
  - not_expired. reflexivity.
  - expired. reflexivity.
Qed.

(** At the expiry second itself the token still verifies. *)
Lemma access_token_valid_at_expiry (data : dict) (issued : Z) :
  claims_pass (issued + 15 * 60) data →
  decode_access_token (issued + 15 * 60) (create_access_token issued data 15) =
    Return (Some (<["exp" := VInt (issued + 15 * 60)]> data)).
Proof.
  intros Hpass. rewrite decode_created_access_token, Z.ltb_irrefl by assumption.
  reflexivity.
Qed.

(** A subject that is not a string fails the validation, whatever the
    clock reads: the token of [create_access_token] never verifies. *)
Lemma access_token_numeric_sub (issued now minutes n : Z) :
  decode_access_token now (create_access_token issued {[ "sub" := VInt n ]} minutes) =
    Return None.
Proof.
  unfold decode_access_token, create_access_token.
  rewrite jwt_decode_encode, validate_claims_insert_exp.
  destruct (issued + minutes * 60 <? now); reflexivity.
Qed.

(** C8: the verifiers do raise.  A token signed with the key of the
    process whose ["exp"] is [None] makes the library's [int(claims["exp"])]
    raise [TypeError], which is no [JWTError]: it passes the [except]
    clause of both verifiers and leaves the session gate and the refresh
    flow as it is, not as the 401 rejection. *)
Theorem verifier_raises_TypeError (now later : Z) (email : string) :
  let token := jwt_encode (<["exp" := VNone]> {[ "sub" := VStr email ]})
                 SECRET_KEY ALGORITHM in
  decode_access_token now token = Raise TypeError ∧
  decode_token now token = Raise TypeError ∧
  get_current_user now token = Raise TypeError ∧
  refresh_token now later (request_with_cookie token) = Raise TypeError.
Proof.
  intros token.
  assert (Hdec : decode_token now token = Raise TypeError).
  { unfold token. rewrite decode_signed. reflexivity. }
  assert (Htok : token ≠ "").
  { intros Heq. rewrite Heq in Hdec. unfold decode_token in Hdec.
    rewrite jwt_decode_empty in Hdec. discriminate. }
  split; [exact Hdec |]. split; [exact Hdec |]. split.
  - unfold get_current_user.
    change (decode_access_token now token) with (decode_token now token).
    rewrite Hdec. reflexivity.
  - unfold refresh_token, request_with_cookie. simpl cookies.
    rewrite lookup_singleton_eq. simpl truthy_str.
    apply String.eqb_neq in Htok. rewrite Htok. simpl.
    rewrite Hdec. reflexivity.
Qed.

(** C9: the refresh token carries exactly the claims it was given; no
    [exp] is added. *)
Theorem refresh_token_claims (data : dict) :
  jwt_get_unverified_claims (create_refresh_token data) = Return data.
Proof. apply jwt_claims_encode. Qed.

(** The access token, in contrast, carries the given claims and [exp]. *)
Lemma access_token_claims (data : dict) (issued minutes : Z) :
  jwt_get_unverified_claims (create_access_token issued data minutes) =
    Return (<["exp" := VInt (issued + minutes * 60)]> data).
Proof. apply jwt_claims_encode. Qed.
End token_facts.

(** ** The session gate and the refresh flow *)

Lemma truthy_str_nonempty (s : string) : s ≠ "" → truthy_str (Some s) = true.
Proof. intros Hs. simpl. apply String.eqb_neq in Hs. rewrite Hs. reflexivity. Qed.

Lemma truthy_payload_nonempty (d : dict) : d ≠ ∅ → truthy_payload (Some d) = true.
Proof. intros Hd. simpl. rewrite bool_decide_false by assumption. reflexivity. Qed.

Lemma lookup_nonempty (d : dict) (k : string) (v : value) : d !! k = Some v → d ≠ ∅.
Proof. intros Hk ->. rewrite lookup_empty in Hk. discriminate. Qed.

Section gate_facts.
Context {J : Jose}.

(** The gate on a token whose verification gave a non-empty claims map. *)
Lemma get_current_user_verified (now : Z) (token : string) (payload : dict) :
  decode_access_token now token = Return (Some payload) →
  payload ≠ ∅ →
  get_current_user now token = getitem payload "sub".
Proof.
  intros Hdec Hne. unfold get_current_user. rewrite Hdec. simpl.
  rewrite bool_decide_false by assumption. reflexivity.
Qed.

(** The refresh flow on a cookie whose verification gave a non-empty
    claims map. *)
Lemma refresh_token_verified (now later : Z) (request : Request) (token : string)
    (payload : dict) :
  cookies request !! "refresh_token" = Some token →
  token ≠ "" →
  decode_token now token = Return (Some payload) →
  payload ≠ ∅ →
  refresh_token now later request =
    (sub ← getitem payload "sub";
     Return (token_body (create_access_token later {[ "sub" := sub ]} 15))).
Proof.
  intros Hcookie Htok Hdec Hne. unfold refresh_token.
  rewrite Hcookie, truthy_str_nonempty by assumption. simpl.
  rewrite Hdec. simpl. rewrite bool_decide_false by assumption. reflexivity.
Qed.

(** The gate turns a failed verification into the 401 rejection. *)
Lemma get_current_user_unverified (now : Z) (token : string) :
  decode_access_token now token = Return None →
  get_current_user now token = Raise (HTTPException 401 "Invalid or expired token").
Proof. intros Hdec. unfold get_current_user. rewrite Hdec. reflexivity. Qed.

(** So does it an empty claims map: [not payload] holds of [{}] too. *)
Lemma get_current_user_empty_payload (now : Z) (token : string) :
  decode_access_token now token = Return (Some ∅) →
  get_current_user now token = Raise (HTTPException 401 "Invalid or expired token").
Proof. intros Hdec. unfold get_current_user. rewrite Hdec. reflexivity. Qed.
End gate_facts.

Section session_facts.
Context {J : Jose} {JL : JoseLaws}.

(** C4: the two verifiers are the same function.  So a refresh token, which
    has no [exp], passes the session gate as a bearer token at any time,
    and an access token that has not expired is taken by the refresh flow
    when it is put in the refresh cookie. *)
Theorem verifiers_agree :
  (∀ now token, decode_access_token now token = decode_token now token) ∧
  (∀ now email,
     get_current_user now (create_refresh_token {[ "sub" := VStr email ]}) =
       Return (VStr email)) ∧
  (∀ issued now later email,
     now ≤ issued + 15 * 60 →
     refresh_token now later
         (request_with_cookie (create_access_token issued {[ "sub" := VStr email ]} 15)) =
       Return (token_body (create_access_token later {[ "sub" := VStr email ]} 15))).
Proof.
  split; [reflexivity |]. split.
  - intros now email.
    rewrite (get_current_user_verified now _ {[ "sub" := VStr email ]}).
    + unfold getitem. rewrite lookup_singleton_eq. reflexivity.
    + apply decode_created_refresh_token, validate_claims_subject.
    + apply (lookup_nonempty _ "sub" (VStr email)), lookup_singleton_eq.
  - intros issued now later email Hnow.
    assert (Hdec : decode_token now
                     (create_access_token issued {[ "sub" := VStr email ]} 15) =
                   Return (Some (<["exp" := VInt (issued + 15 * 60)]>
                                   {[ "sub" := VStr email ]}))).
    { change (decode_token now) with (decode_access_token now).
      rewrite decode_created_access_token by apply claims_pass_subject.
      not_expired. reflexivity. }
    rewrite (refresh_token_verified now later _ _ _ (lookup_singleton_eq _ _)
               (decode_token_nonempty _ _ _ Hdec) Hdec).
    + unfold getitem. rewrite lookup_insert_ne by discriminate.
      rewrite lookup_singleton_eq. reflexivity.
    + apply (lookup_nonempty _ "exp" (VInt (issued + 15 * 60))), lookup_insert_eq.
Qed.


(** The cookie with an empty value counts as no cookie. *)
Lemma refresh_flow_empty_cookie (now later : Z) :
  refresh_token now later (request_with_cookie "") =
    Raise (HTTPException 401 "No refresh token found").
Proof. reflexivity. Qed.

(** A token signed with the process secret over the empty claims map gets
    the 401 of the gate and of the refresh flow. *)
Lemma empty_claims_rejected (now later : Z) :
  get_current_user now (create_refresh_token ∅) =
    Raise (HTTPException 401 "Invalid or expired token") ∧
  refresh_token now later (request_with_cookie (create_refresh_token ∅)) =
    Raise (HTTPException 401 "Invalid refresh token").
Proof.
  assert (Hdec : decode_token now (create_refresh_token ∅) = Return (Some ∅))
    by apply decode_created_refresh_token, validate_claims_empty.
  split.
  - apply get_current_user_empty_payload, Hdec.
  - unfold refresh_token, request_with_cookie. simpl cookies.
    rewrite lookup_singleton_eq.
    rewrite truthy_str_nonempty by exact (decode_token_nonempty _ _ _ Hdec).
    simpl. rewrite Hdec. reflexivity.
Qed.

(** C10 as amended: when verification of a token returns a non-empty
    claims map without ["sub"], the session gate and the refresh flow
    raise [KeyError] and not the 401 rejection. *)
Theorem missing_sub_raises_KeyError (now later : Z) (token : string) (payload : dict) :
  decode_access_token now token = Return (Some payload) →
  payload ≠ ∅ →
  payload !! "sub" = None →
  get_current_user now token = Raise (KeyError "sub") ∧
  refresh_token now later (request_with_cookie token) = Raise (KeyError "sub").
Proof.
  intros Hdec Hne Hsub. split.
  - rewrite (get_current_user_verified _ _ _ Hdec Hne).
    unfold getitem. rewrite Hsub. reflexivity.
  - rewrite (refresh_token_verified now later _ _ _ (lookup_singleton_eq _ _)
               (decode_token_nonempty _ _ _ Hdec) Hdec Hne).
    unfold getitem. rewrite Hsub. reflexivity.
Qed.
End session_facts.

(** ** The password hasher *)


Section password_facts.
Context {P : Passlib} {PL : PasslibLaws}.




(** A password that is not accepted has no digest. *)
Lemma hash_password_refused (salt p : string) :
  accepted_password p = false → hash_password salt p = Raise PasswordValueError.
Proof. apply pwd_hash_refused. Qed.
End password_facts.

(** ** The credential store *)

Lemma select_user_by_email_some (db : store) (e : string) :
  (0 < count_email db e)%nat → ∃ u, select_user_by_email db e = Some u.
Proof.
  unfold count_email, select_user_by_email.
  induction db as [| u db IH]; simpl; [lia |].
  destruct (String.eqb (models.email u) e); [eauto | exact IH].
Qed.

Lemma select_user_by_email_none (db : store) (e : string) :
  select_user_by_email db e = None → e ∉ map models.email db.
Proof.
  unfold select_user_by_email. induction db as [| u db IH]; simpl.
  - intros _. apply not_elem_of_nil.
  - destruct (String.eqb (models.email u) e) eqn:Heq; [discriminate |].
    intros Hfind. apply not_elem_of_cons. split.
    + apply String.eqb_neq in Heq. congruence.
    + apply IH, Hfind.
Qed.

(** An insert appends one row that differs from the given one at most in
    its key. *)
Lemma session_insert_appends (db db' : store) (user user' : models.User) :
  session_insert db user = Return (user', db') →
  db' = (db ++ [user'])%list ∧
  models.email user' = models.email user ∧
  models.password user' = models.password user.
Proof.
  unfold session_insert. destruct (models.id user) as [i |].
  - destruct (existsb _ db); [discriminate |]. intros [= <- <-]. auto.
  - intros [= <- <-]. auto.
Qed.

Section signup_facts.
Context {P : Passlib}.

(** C6: signup with an email that the store already holds is rejected
    with "User already exists" and leaves the store as it was, so the
    number of rows for that email does not change. *)
Theorem signup_duplicate_rejected (salt : string) (user : models.User) (db : store) :
  (0 < count_email db (models.email user))%nat →
  signup salt user db = (Raise (HTTPException 400 "User already exists"), db) ∧
  count_email (signup salt user db).2 (models.email user) =
    count_email db (models.email user).
Proof.
  intros Hcount. apply select_user_by_email_some in Hcount as [u Hfind].
  assert (Hsignup : signup salt user db =
                    (Raise (HTTPException 400 "User already exists"), db)).
  { unfold signup. rewrite Hfind. reflexivity. }
  rewrite Hsignup. split; reflexivity.
Qed.

(** No row holds an email that is not counted. *)
Lemma select_user_by_email_fresh (db : store) (e : string) :
  count_email db e = 0%nat → select_user_by_email db e = None.
Proof.
  unfold count_email, select_user_by_email.
  induction db as [| r db IH]; simpl; [reflexivity |].
  destruct (String.eqb (models.email r) e); simpl; [discriminate | exact IH].
Qed.

(** An exception of the hasher leaves [signup] with the table as it was. *)
Lemma signup_hash_raises (salt : string) (user : models.User) (db : store) (e : exn) :
  select_user_by_email db (models.email user) = None →
  hash_password salt (models.password user) = Raise e →
  signup salt user db = (Raise e, db).
Proof. intros Hfind Hhash. unfold signup. rewrite Hfind, Hhash. reflexivity. Qed.


(** Signup keeps the invariant of the store. *)
Lemma signup_preserves_invariant (salt : string) (user : models.User) (db db' : store)
    (r : result dict) :
  store_invariant db →
  signup salt user db = (r, db') →
  store_invariant db'.
Proof.
  unfold store_invariant, emails_unique, signup. intros [Huniq Hdigest].
  destruct (select_user_by_email db (models.email user)) as [u |] eqn:Hfind.
  - intros [= <- <-]. auto.
  - destruct (hash_password salt (models.password user)) as [digest | e] eqn:Hhash;
      [| intros [= <- <-]; auto].
    destruct (session_insert db _) as [[row db''] | e] eqn:Hins.
    + intros [= <- <-]. apply session_insert_appends in Hins as (-> & Hemail & Hpw).
      simpl in Hemail, Hpw. split.
      * rewrite map_app. apply NoDup_app. split; [assumption |]. split.
        -- intros x Hx Hin. simpl in Hin. apply list_elem_of_singleton in Hin.
           apply select_user_by_email_none in Hfind. congruence.
        -- simpl. apply NoDup_singleton.
      * apply Forall_app. split; [assumption |].
        apply Forall_singleton. exists salt, (models.password user).
        rewrite Hpw. exact Hhash.
    + intros [= <- <-]. auto.
Qed.

(** Every table that sign-ups build satisfies the invariant. *)
Lemma signed_up_invariant (db : store) : signed_up db → store_invariant db.
Proof.
  induction 1 as [| salt user db db' r _ IH Hsignup].
  - split; [apply NoDup_nil_2 | apply Forall_nil_2].
  - exact (signup_preserves_invariant _ _ _ _ _ IH Hsignup).
Qed.

End signup_facts.

(** ** Login *)

Section login_facts.
Context {J : Jose} {P : Passlib}.

(** C1 as amended: on a successful login the body holds the access token
    and the refresh token is set as a cookie that is HTTP-only,
    SameSite=Strict, with a max age of 604800 seconds, and whose Secure
    flag is off. *)
Theorem login_success (now : Z) (form_data : OAuth2PasswordRequestForm)
    (db : store) (user : models.User) :
  select_user_by_email db (form_username form_data) = Some user →
  verify_password (form_password form_data) (models.password user) = Return true →
  login now form_data db =
    Return {|
      content :=
        token_body (create_access_token now {[ "sub" := VStr (models.email user) ]} 15);
      set_cookie :=
        [ {| key := "refresh_token";
             cookie_value := create_refresh_token {[ "sub" := VStr (models.email user) ]};
             httponly := true;
             secure := false;
             samesite := "strict";
             max_age := 604800 |} ]
    |}.
Proof.
  intros Hfind Hverify. unfold login. rewrite Hfind, Hverify. reflexivity.
Qed.

(** The two rejections of [login]. *)
Lemma login_rejections (now : Z) (form_data : OAuth2PasswordRequestForm) (db : store) :
  (select_user_by_email db (form_username form_data) = None →
     login now form_data db = Raise (HTTPException 401 "User not found")) ∧
  (∀ user,
     select_user_by_email db (form_username form_data) = Some user →
     verify_password (form_password form_data) (models.password user) = Return false →
     login now form_data db = Raise (HTTPException 401 "Incorrect password")).
Proof.
  split.
  - intros Hfind. unfold login. rewrite Hfind. reflexivity.
  - intros user Hfind Hverify. unfold login. rewrite Hfind, Hverify. reflexivity.
Qed.
End login_facts.

(** ** The handlers on concrete requests, with the symbolic libraries *)

Module scenario_facts.
Import scenario symbolic_facts.

#[local] Existing Instance symbolic.jose.
#[local] Existing Instance symbolic.passlib.

(** [alice_form] logs in against a table that holds Alice and Bob; the
    cookie of the response has its Secure flag off. *)
Lemma login_cookie_not_secure :
  match login (J := symbolic.jose) (P := symbolic.passlib) 1000 alice_form [alice; bob] with
  | Return response => map secure (set_cookie response) = [false]
  | Raise _ => False
  end.
Proof. vm_compute. reflexivity. Qed.

(** Alice logs in with her password. *)
Lemma login_success_witness :
  login (J := symbolic.jose) (P := symbolic.passlib) 1000 alice_form [alice; bob] =
    Return {|
      content := token_body (create_access_token (J := symbolic.jose) 1000
                               {[ "sub" := VStr "a@x.com" ]} 15);
      set_cookie :=
        [ {| key := "refresh_token";
             cookie_value := create_refresh_token (J := symbolic.jose)
                               {[ "sub" := VStr "a@x.com" ]};
             httponly := true;
             secure := false;
             samesite := "strict";
             max_age := 604800 |} ]
    |}.
Proof.
  apply (@login_success symbolic.jose symbolic.passlib 1000 alice_form [alice; bob] alice).
  - reflexivity.
  - reflexivity.
Defined.

(** Every digest of the symbolic hasher starts with its scheme. *)
Lemma not_a_digest (u : models.User) :
  String.prefix "$2b$" (models.password u) = false →
  ¬ holds_digest (P := symbolic.passlib) u.
Proof.
  intros Hprefix (salt & secret & Hpw).
  unfold hash_password in Hpw. cbn [pwd_hash symbolic.passlib] in Hpw.
  unfold symbolic.bcrypt_hash in Hpw.
  destruct (accepted_password secret); [| discriminate].
  injection Hpw as Hpw. rewrite <- Hpw in Hprefix. discriminate.
Qed.

(** C2: every writer of the table should keep emails unique and passwords
    hashed.  [signup] builds a table with Alice's row that satisfies both;
    on it [create_user] stores a second row with Alice's email whose
    password is the secret as submitted, and [update_user] moves Bob's row
    onto Alice's email. *)
Theorem create_user_breaks_invariant :
  signup "N9qo8uLOickgx2ZMRZoMye" alice_body [] =
    (Return {[ "msg" := VStr "User registered!" ]}, [alice]) ∧
  store_invariant [alice] ∧
  create_user eve [alice] = (Return ("User added", eve_row), [alice; eve_row]) ∧
  ¬ emails_unique [alice; eve_row] ∧
  count_email [alice; eve_row] "a@x.com" = 2%nat ∧
  models.password eve_row = models.password eve ∧
  ¬ holds_digest eve_row ∧
  emails_unique [alice; bob] ∧
  update_user 2 bob_update [alice; bob] =
    (Return ("User updated", bob_row), [alice; bob_row]) ∧
  ¬ emails_unique [alice; bob_row].
Proof.
  assert (Hsignup : signup "N9qo8uLOickgx2ZMRZoMye" alice_body [] =
                      (Return {[ "msg" := VStr "User registered!" ]}, [alice]))
    by reflexivity.
  assert (Hdup : ∀ u v : models.User,
            models.email u = models.email v → ¬ emails_unique [u; v]).
  { intros u v Heq Huniq. apply NoDup_cons in Huniq as [Hin _].
    apply Hin. simpl. rewrite Heq. left. }
  split; [exact Hsignup |]. split.
  { apply signed_up_invariant. exact (signed_up_signup _ _ _ _ _ signed_up_empty Hsignup). }
  split; [reflexivity |]. split; [apply Hdup; reflexivity |].
  split; [reflexivity |]. split; [reflexivity |].
  split; [apply not_a_digest; reflexivity |]. split.
  { apply NoDup_cons. split; [| apply NoDup_singleton].
    simpl. intros Hin. apply list_elem_of_singleton in Hin. discriminate. }
  split; [reflexivity | apply Hdup; reflexivity].
Qed.

(** Signing up twice with one email: the second call is rejected and the
    table holds one row for the email. *)
Lemma signup_twice :
  let first := signup (P := symbolic.passlib) "N9qo8uLOickgx2ZMRZoMye" eve [bob] in
  let second := signup (P := symbolic.passlib) "EixZaYVK1fsbw1ZfbX3OXe" eve first.2 in
  first.1 = Return {[ "msg" := VStr "User registered!" ]} ∧
  second.1 = Raise (HTTPException 400 "User already exists") ∧
  second.2 = first.2 ∧
  count_email second.2 "a@x.com" = 1%nat.
Proof. vm_compute. repeat split. Qed.

(** Eve signs up with the email of Alice's row. *)
Lemma signup_duplicate_rejected_witness :
  signup (P := symbolic.passlib) "EixZaYVK1fsbw1ZfbX3OXe" eve [alice] =
    (Raise (HTTPException 400 "User already exists"), [alice]) ∧
  count_email (signup (P := symbolic.passlib) "EixZaYVK1fsbw1ZfbX3OXe" eve [alice]).2
    "a@x.com" = 1%nat.
Proof.
  apply (@signup_duplicate_rejected symbolic.passlib "EixZaYVK1fsbw1ZfbX3OXe" eve [alice]).
  vm_compute. constructor.
Defined.


(** A token issued at second 1000 for the subject 123, a number, fails
    verification 500 seconds later, 400 seconds before it expires. *)
Lemma access_token_numeric_sub_rejected :
  1500 < 1000 + 15 * 60 ∧
  decode_access_token (J := symbolic.jose) 1500
      (create_access_token 1000 {[ "sub" := VInt 123 ]} 15) = Return None.
Proof. split; [lia | vm_compute; reflexivity]. Qed.

(** A token issued at second 1000 expires at second 1900. *)
Lemma access_token_ttl_witness :
  decode_access_token (J := symbolic.jose) 1899
      (create_access_token 1000 {[ "sub" := VStr "a@x.com" ]} 15) =
    Return (Some (<["exp" := VInt 1900]> {[ "sub" := VStr "a@x.com" ]})) ∧
  decode_access_token (J := symbolic.jose) 1901
      (create_access_token 1000 {[ "sub" := VStr "a@x.com" ]} 15) = Return None.
Proof.
  split.
  - apply (@access_token_ttl symbolic.jose jose_laws
             {[ "sub" := VStr "a@x.com" ]} 1000 1899); [reflexivity | lia].
  - apply (@access_token_ttl symbolic.jose jose_laws
             {[ "sub" := VStr "a@x.com" ]} 1000 1901); [reflexivity | lia].
Defined.

(** Alice's refresh token at the gate, her access token in the cookie. *)
Lemma verifiers_agree_witness :
  decode_access_token (J := symbolic.jose) 1000 empty_token =
    decode_token 1000 empty_token ∧
  get_current_user (J := symbolic.jose) 1000
      (create_refresh_token {[ "sub" := VStr "a@x.com" ]}) = Return (VStr "a@x.com") ∧
  refresh_token (J := symbolic.jose) 1500 1501
      (request_with_cookie (create_access_token 1000 {[ "sub" := VStr "a@x.com" ]} 15)) =
    Return (token_body (create_access_token 1501 {[ "sub" := VStr "a@x.com" ]} 15)).
Proof.
  destruct (@verifiers_agree symbolic.jose jose_laws) as (Heq & Hgate & Hrefresh).
  split; [apply Heq |]. split; [apply Hgate |]. apply Hrefresh. lia.
Defined.



(** Alice's token with a null expiry at second 1000. *)
Lemma verifier_raises_TypeError_witness :
  let token := jwt_encode (Jose := symbolic.jose)
                 (<["exp" := VNone]> {[ "sub" := VStr "a@x.com" ]})
                 SECRET_KEY ALGORITHM in
  decode_access_token (J := symbolic.jose) 1000 token = Raise TypeError ∧
  decode_token (J := symbolic.jose) 1000 token = Raise TypeError ∧
  get_current_user (J := symbolic.jose) 1000 token = Raise TypeError ∧
  refresh_token (J := symbolic.jose) 1000 1001 (request_with_cookie token) =
    Raise TypeError.
Proof. apply (@verifier_raises_TypeError symbolic.jose jose_laws 1000 1001 "a@x.com"). Defined.

(** Alice's refresh token carries her subject and nothing else. *)
Lemma refresh_token_claims_witness :
  jwt_get_unverified_claims (Jose := symbolic.jose)
      (create_refresh_token {[ "sub" := VStr "a@x.com" ]}) =
    Return {[ "sub" := VStr "a@x.com" ]}.
Proof.
  apply (@refresh_token_claims symbolic.jose jose_laws {[ "sub" := VStr "a@x.com" ]}).
Defined.

(** [empty_token] is signed with the process secret and names no subject,
    yet the gate and the refresh flow answer it with their 401. *)
Lemma empty_claims_token_rejected :
  jwt_decode (Jose := symbolic.jose) 1000 empty_token SECRET_KEY [ALGORITHM] = Return ∅ ∧
  get_current_user (J := symbolic.jose) 1000 empty_token =
    Raise (HTTPException 401 "Invalid or expired token") ∧
  refresh_token (J := symbolic.jose) 1000 1001 (request_with_cookie empty_token) =
    Raise (HTTPException 401 "Invalid refresh token").
Proof. vm_compute. repeat split. Qed.

(** [anonymous_token] verifies, to a claims map with a role and no subject. *)
Lemma missing_sub_raises_KeyError_witness :
  get_current_user (J := symbolic.jose) 1000 anonymous_token = Raise (KeyError "sub") ∧
  refresh_token (J := symbolic.jose) 1000 1001 (request_with_cookie anonymous_token) =
    Raise (KeyError "sub").
Proof.
  apply (@missing_sub_raises_KeyError symbolic.jose jose_laws 1000 1001 anonymous_token
           {[ "role" := VStr "admin" ]}).
  - vm_compute. reflexivity.
  - apply (lookup_nonempty _ "role" (VStr "admin")). reflexivity.
  - reflexivity.
Defined.

End scenario_facts.

(** ** The table of users under the CRUD handlers *)

Lemma foldr_max_bound (i0 x : Z) (l : list Z) : x ∈ i0 :: l → x ≤ foldr Z.max i0 l.
Proof.
  induction l as [| a l IH]; simpl.
  - intros Hx. apply list_elem_of_singleton in Hx. lia.
  - intros Hx. apply elem_of_cons in Hx as [-> | Hx].
    + assert (i0 ≤ foldr Z.max i0 l) by (apply IH; left). lia.
    + apply elem_of_cons in Hx as [-> | Hx]; [lia |].
      assert (x ≤ foldr Z.max i0 l) by (apply IH; right; exact Hx). lia.
Qed.

(** The key given to a new row is larger than every key of the table. *)
Lemma next_key_above (ks : list Z) (x : Z) : x ∈ ks → x < next_key ks.
Proof.
  destruct ks as [| i ids]; simpl.
  - intros Hx. apply elem_of_nil in Hx. contradiction.
  - intros Hx. apply foldr_max_bound in Hx. lia.
Qed.

Lemma next_key_fresh (ks : list Z) : next_key ks ∉ ks.
Proof. intros Hin. apply next_key_above in Hin. lia. Qed.

Lemma keys_cons (u : models.User) (db : store) :
  keys (u :: db) = match models.id u with Some i => i :: keys db | None => keys db end.
Proof. reflexivity. Qed.

Lemma keys_app (db1 db2 : store) : keys (db1 ++ db2) = (keys db1 ++ keys db2)%list.
Proof. unfold keys. apply omap_app. Qed.

Lemma elem_of_keys (db : store) (i : Z) :
  i ∈ keys db ↔ ∃ u, u ∈ db ∧ models.id u = Some i.
Proof. unfold keys. rewrite list_elem_of_omap. reflexivity. Qed.

Lemma session_get_Some (db : store) (user_id : Z) (u : models.User) :
  session_get db user_id = Some u → u ∈ db ∧ models.id u = Some user_id.
Proof.
  unfold session_get. intros Hfind. apply List.find_some in Hfind as [Hin Hid].
  split.
  - apply list_elem_of_In. exact Hin.
  - apply bool_decide_eq_true in Hid. exact Hid.
Qed.

Lemma session_get_None (db : store) (user_id : Z) :
  user_id ∉ keys db → session_get db user_id = None.
Proof.
  intros Hfresh. destruct (session_get db user_id) as [u |] eqn:Hget; [| reflexivity].
  apply session_get_Some in Hget as [Hin Hid].
  exfalso. apply Hfresh, elem_of_keys. eauto.
Qed.

Lemma table_ok_cons (u : models.User) (db : store) :
  table_ok (u :: db) ↔
  ∃ i, models.id u = Some i ∧ (i ∉ keys db) ∧ table_ok db.
Proof.
  unfold table_ok. rewrite Forall_cons, keys_cons. split.
  - intros [[[i Hi] Hall] Hnodup]. rewrite Hi in Hnodup.
    apply NoDup_cons in Hnodup as [Hfresh Hnodup]. eauto 6.
  - intros (i & Hi & Hfresh & Hall & Hnodup). rewrite Hi.
    split; [split; [eauto | assumption] |]. apply NoDup_cons. auto.
Qed.

(** In a table with distinct keys, the lookup by key finds the row. *)
Lemma session_get_row (db : store) (user_id : Z) (u : models.User) :
  table_ok db → u ∈ db → models.id u = Some user_id → session_get db user_id = Some u.
Proof.
  induction db as [| r db IH]; intros Hok Hin Hid.
  - apply elem_of_nil in Hin. contradiction.
  - apply table_ok_cons in Hok as (i & Hi & Hfresh & Hok).
    unfold session_get. simpl. apply elem_of_cons in Hin as [<- | Hin].
    + rewrite bool_decide_true by assumption. reflexivity.
    + rewrite bool_decide_false.
      * apply IH; assumption.
      * rewrite Hi. intros [= ->]. apply Hfresh, elem_of_keys. eauto.
Qed.


(** What an insert that succeeds does to the table. *)
Lemma session_insert_row (db db' : store) (user row : models.User) :
  session_insert db user = Return (row, db') →
  ∃ i, models.id row = Some i ∧ (i ∉ keys db) ∧ db' = (db ++ [row])%list ∧
       (models.id user = None ∨ models.id user = Some i) ∧
       models.name row = models.name user ∧
       models.email row = models.email user ∧
       models.password row = models.password user.
Proof.
  unfold session_insert. destruct (models.id user) as [i |] eqn:Hid.
  - destruct (existsb _ db) eqn:Hex; [discriminate |]. intros [= <- <-].
    exists i. rewrite Hid. repeat split; auto.
    intros Hin. apply elem_of_keys in Hin as (u & Hu & Hi).
    apply not_true_iff_false in Hex. apply Hex, existsb_exists.
    exists u. split.
    + apply list_elem_of_In. exact Hu.
    + apply bool_decide_eq_true. exact Hi.
  - intros [= <- <-]. exists (next_id db). simpl. repeat split; auto.
    apply next_key_fresh.
Qed.

Lemma table_ok_snoc (db : store) (row : models.User) (i : Z) :
  table_ok db → models.id row = Some i → i ∉ keys db → table_ok (db ++ [row]).
Proof.
  unfold table_ok. intros [Hall Hnodup] Hid Hfresh. split.
  - apply Forall_app. split; [assumption |]. apply Forall_singleton. eauto.
  - rewrite keys_app. apply NoDup_app. split; [assumption |]. split.
    + intros x Hx Hin. unfold keys in Hin. simpl in Hin. rewrite Hid in Hin.
      apply list_elem_of_singleton in Hin. congruence.
    + unfold keys. simpl. rewrite Hid. apply NoDup_singleton.
Qed.

Lemma session_get_update_same (db : store) (new : models.User) (user_id : Z) :
  models.id new = Some user_id →
  session_get (session_update db new) user_id =
    match session_get db user_id with Some _ => Some new | None => None end.
Proof.
  intros Hid. unfold session_get, session_update. rewrite Hid.
  induction db as [| r db IH]; simpl; [reflexivity |].
  destruct (decide (models.id r = Some user_id)) as [Hr | Hr].
  - rewrite (bool_decide_true _ Hr), Hid.
    rewrite bool_decide_true by reflexivity. reflexivity.
  - rewrite !(bool_decide_false _ Hr). exact IH.
Qed.

Lemma session_get_update_other (db : store) (new : models.User) (user_id j : Z) :
  models.id new = Some user_id → j ≠ user_id →
  session_get (session_update db new) j = session_get db j.
Proof.
  intros Hid Hj. unfold session_get, session_update. rewrite Hid.
  induction db as [| r db IH]; simpl; [reflexivity |].
  destruct (decide (models.id r = Some user_id)) as [Hr | Hr].
  - rewrite (bool_decide_true _ Hr), Hid, Hr.
    rewrite !bool_decide_false by congruence. exact IH.
  - rewrite (bool_decide_false _ Hr).
    destruct (bool_decide (models.id r = Some j)); [reflexivity | exact IH].
Qed.

Lemma keys_update (db : store) (new : models.User) :
  keys (session_update db new) = keys db.
Proof.
  unfold session_update. induction db as [| r db IH]; [reflexivity |].
  simpl map. rewrite !keys_cons, IH.
  destruct (decide (models.id r = models.id new)) as [Hr | Hr].
  - rewrite (bool_decide_true _ Hr), Hr. reflexivity.
  - rewrite (bool_decide_false _ Hr). reflexivity.
Qed.

Lemma table_ok_update (db : store) (new : models.User) :
  table_ok db → table_ok (session_update db new).
Proof.
  unfold table_ok. intros [Hall Hnodup]. rewrite keys_update. split; [| assumption].
  unfold session_update. apply Forall_fmap. eapply Forall_impl; [exact Hall |].
  intros r Hr. simpl.
  destruct (decide (models.id r = models.id new)) as [Heq | Hne].
  - rewrite (bool_decide_true _ Heq), <- Heq. exact Hr.
  - rewrite (bool_decide_false _ Hne). exact Hr.
Qed.

Lemma session_get_delete_same (db : store) (old : models.User) (user_id : Z) :
  models.id old = Some user_id →
  session_get (session_delete db old) user_id = None.
Proof.
  intros Hid. unfold session_get, session_delete. rewrite Hid.
  induction db as [| r db IH]; simpl; [reflexivity |].
  destruct (decide (models.id r = Some user_id)) as [Hr | Hr].
  - rewrite (bool_decide_true _ Hr). simpl. exact IH.
  - rewrite (bool_decide_false _ Hr). simpl.
    rewrite (bool_decide_false _ Hr). exact IH.
Qed.

Lemma session_get_delete_other (db : store) (old : models.User) (user_id j : Z) :
  models.id old = Some user_id → j ≠ user_id →
  session_get (session_delete db old) j = session_get db j.
Proof.
  intros Hid Hj. unfold session_get, session_delete. rewrite Hid.
  induction db as [| r db IH]; simpl; [reflexivity |].
  destruct (decide (models.id r = Some user_id)) as [Hr | Hr].
  - rewrite (bool_decide_true _ Hr). simpl. rewrite Hr.
    rewrite bool_decide_false by congruence. exact IH.
  - rewrite (bool_decide_false _ Hr). simpl.
    destruct (bool_decide (models.id r = Some j)); [reflexivity | exact IH].
Qed.

Lemma elem_of_session_delete (db : store) (old r : models.User) :
  r ∈ session_delete db old ↔ r ∈ db ∧ models.id r ≠ models.id old.
Proof.
  unfold session_delete. rewrite !list_elem_of_In, List.filter_In.
  rewrite negb_true_iff, bool_decide_eq_false. reflexivity.
Qed.

Lemma keys_delete_subset (db : store) (old : models.User) (i : Z) :
  i ∈ keys (session_delete db old) → i ∈ keys db.
Proof.
  rewrite !elem_of_keys. intros (u & Hu & Hi).
  apply elem_of_session_delete in Hu as [Hu _]. eauto.
Qed.

Lemma table_ok_delete (db : store) (old : models.User) :
  table_ok db → table_ok (session_delete db old).
Proof.
  induction db as [| r db IH]; intros Hok; [exact Hok |].
  apply table_ok_cons in Hok as (i & Hi & Hfresh & Hok).
  unfold session_delete. simpl.
  destruct (negb (bool_decide (models.id r = models.id old))).
  - apply table_ok_cons. exists i. split; [assumption |]. split; [| apply IH, Hok].
    intros Hin. apply Hfresh. eapply keys_delete_subset. exact Hin.
  - apply IH, Hok.
Qed.

(** Deleting by a key that one row carries removes one row. *)
Lemma length_session_delete (db : store) (old : models.User) :
  table_ok db → old ∈ db →
  (length (session_delete db old) + 1 = length db)%nat.
Proof.
  induction db as [| r db IH]; intros Hok Hin.
  - apply elem_of_nil in Hin. contradiction.
  - apply table_ok_cons in Hok as (i & Hi & Hfresh & Hok).
    unfold session_delete. simpl. apply elem_of_cons in Hin as [<- | Hin].
    + rewrite bool_decide_true by reflexivity. simpl.
      fold (session_delete db old).
      assert (Hsame : session_delete db old = db).
      { unfold session_delete. apply forallb_filter_id. apply forallb_forall.
        intros u Hu. apply negb_true_iff, bool_decide_eq_false.
        rewrite Hi. intros Hid. apply Hfresh, elem_of_keys.
        exists u. split; [apply list_elem_of_In, Hu | exact Hid]. }
      rewrite Hsame. lia.
    + rewrite bool_decide_false.
      * simpl. fold (session_delete db old). rewrite <- (IH Hok Hin). lia.
      * rewrite Hi. intros Hid. apply Hfresh, elem_of_keys. eauto.
Qed.




Lemma existsb_key (db : store) (i : Z) :
  i ∈ keys db → existsb (λ u, bool_decide (models.id u = Some i)) db = true.
Proof.
  intros Hin. apply elem_of_keys in Hin as (u & Hu & Hi).
  apply existsb_exists. exists u. split.
  - apply list_elem_of_In. exact Hu.
  - apply bool_decide_eq_true. exact Hi.
Qed.

Section key_facts.
Context {P : Passlib}.

(** X2: a row whose key is already in the table is refused with
    [IntegrityError] and the table stays as it was; this is also how
    [signup] ends when the email is new, the password got its digest and
    the key is taken. *)
Theorem taken_key_rejected (salt : string) (user : models.User) (db : store) (i : Z) :
  models.id user = Some i →
  i ∈ keys db →
  create_user user db = (Raise IntegrityError, db) ∧
  (∀ digest,
     count_email db (models.email user) = 0%nat →
     hash_password salt (models.password user) = Return digest →
     signup salt user db = (Raise IntegrityError, db)).
Proof.
  intros Hid Hin. apply existsb_key in Hin. split.
  - unfold create_user, session_insert. rewrite Hid, Hin. reflexivity.
  - intros digest Hcount Hhash. unfold signup.
    rewrite (select_user_by_email_fresh _ _ Hcount), Hhash.
    unfold session_insert. simpl. rewrite Hid, Hin. reflexivity.
Qed.

(** X3: every handler that writes the table of users keeps its keys: after
    [create_user], [update_user], [delete_user] and [signup] every row has a
    key and no two rows share one. *)
Theorem writers_keep_keys (salt : string) (user : models.User) (user_id : Z) (db : store) :
  table_ok db →
  table_ok (create_user user db).2 ∧
  table_ok (update_user user_id user db).2 ∧
  table_ok (delete_user user_id db).2 ∧
  table_ok (signup salt user db).2.
Proof.
  intros Hok.
  assert (Hinsert : ∀ u, table_ok
            (match session_insert db u with
             | Return (_, db') => db'
             | Raise _ => db
             end)).
  { intros u. destruct (session_insert db u) as [[row db'] | e] eqn:Hins; [| exact Hok].
    apply session_insert_row in Hins as (i & Hid & Hnew & -> & _).
    exact (table_ok_snoc _ _ _ Hok Hid Hnew). }
  split; [| split; [| split]].
  - unfold create_user. specialize (Hinsert user).
    destruct (session_insert db user) as [[row db'] | e]; exact Hinsert.
  - unfold update_user. destruct (session_get db user_id); [| exact Hok].
    apply table_ok_update, Hok.
  - unfold delete_user. destruct (session_get db user_id); [| exact Hok].
    apply table_ok_delete, Hok.
  - unfold signup. destruct (select_user_by_email db _); [exact Hok |].
    destruct (hash_password salt _) as [digest | e]; [| exact Hok].
    match goal with |- context [session_insert db ?u] => specialize (Hinsert u) end.
    destruct (session_insert db _) as [[row db'] | e]; exact Hinsert.
Qed.
End key_facts.

(** X4: [update_user] on the key of a row replaces the name and the email
    of that row and nothing else: the key and the password stay, whatever
    the body holds for them, the other rows and the number of rows stay,
    and [get_user] returns the changed row. *)
Theorem update_user_changes_name_and_email (user_id : Z) (updated_user old : models.User)
    (db : store) :
  table_ok db → old ∈ db → models.id old = Some user_id →
  let new := {| models.id := Some user_id;
                models.name := models.name updated_user;
                models.email := models.email updated_user;
                models.password := models.password old |} in
  ∃ db',
    update_user user_id updated_user db = (Return ("User updated", new), db') ∧
    get_user user_id db' = Return new ∧
    (∀ j, j ≠ user_id → get_user j db' = get_user j db) ∧
    length db' = length db.
Proof.
  intros Hok Hin Hid new.
  pose proof (session_get_row _ _ _ Hok Hin Hid) as Hget.
  exists (session_update db new). repeat split.
  - unfold update_user. rewrite Hget, Hid. reflexivity.
  - unfold get_user. rewrite (session_get_update_same _ new user_id eq_refl), Hget.
    reflexivity.
  - intros j Hj. unfold get_user.
    rewrite (session_get_update_other _ new user_id j eq_refl Hj). reflexivity.
  - unfold session_update. apply length_map.
Qed.

(** X5: with a 64 bit key that no row carries, [get_user], [update_user]
    and [delete_user] answer 404 "User not found" and the table stays as
    it was. *)
Theorem unknown_key_not_found (user_id : Z) (updated_user : models.User) (db : store) :
  int64 user_id →
  user_id ∉ keys db →
  get_user user_id db = Raise (HTTPException 404 "User not found") ∧
  update_user user_id updated_user db = (Raise (HTTPException 404 "User not found"), db) ∧
  delete_user user_id db = (Raise (HTTPException 404 "User not found"), db).
Proof.
  intros _ Hnew. apply session_get_None in Hnew.
  unfold get_user, update_user, delete_user. rewrite Hnew. auto.
Qed.

(** X6: [delete_user] on the key of a row removes that row and no other:
    afterwards [get_user] with the key answers 404, the other keys answer
    as before, and the table has one row less. *)
Theorem delete_user_removes_row (user_id : Z) (old : models.User) (db : store) :
  table_ok db → old ∈ db → models.id old = Some user_id →
  ∃ db',
    delete_user user_id db = (Return {[ "msg" := VStr "User deleted" ]}, db') ∧
    get_user user_id db' = Raise (HTTPException 404 "User not found") ∧
    (∀ j, j ≠ user_id → get_user j db' = get_user j db) ∧
    (length db' + 1 = length db)%nat.
Proof.
  intros Hok Hin Hid.
  pose proof (session_get_row _ _ _ Hok Hin Hid) as Hget.
  exists (session_delete db old). repeat split.
  - unfold delete_user. rewrite Hget. reflexivity.
  - unfold get_user. rewrite (session_get_delete_same _ _ _ Hid). reflexivity.
  - intros j Hj. unfold get_user.
    rewrite (session_get_delete_other _ _ _ _ Hid Hj). reflexivity.
  - apply length_session_delete; assumption.
Qed.

(** ** Sign-up, login and the session across handlers *)



Lemma select_user_by_email_Some (db : store) (e : string) (u : models.User) :
  select_user_by_email db e = Some u → u ∈ db ∧ models.email u = e.
Proof.
  unfold select_user_by_email. intros Hfind.
  apply List.find_some in Hfind as [Hin Heq]. split.
  - apply list_elem_of_In. exact Hin.
  - apply String.eqb_eq. exact Heq.
Qed.


Section signup_login_facts.
Context {J : Jose} {P : Passlib} {PL : PasslibLaws}.



(** X19: [signup] hashes after the lookup and before the write.  A
    password that the hasher refuses ends the sign-up of a new email with
    [PasswordValueError] and nothing written, whatever key the body holds,
    while with the email of a row the answer is the 400 of the lookup. *)
Theorem signup_password_refused (salt : string) (user : models.User) (db : store) :
  accepted_password (models.password user) = false →
  (count_email db (models.email user) = 0%nat →
     signup salt user db = (Raise PasswordValueError, db)) ∧
  ((0 < count_email db (models.email user))%nat →
     signup salt user db = (Raise (HTTPException 400 "User already exists"), db)).
Proof.
  intros Hp. split.
  - intros Hcount. apply signup_hash_raises.
    + apply select_user_by_email_fresh, Hcount.
    + apply hash_password_refused, Hp.
  - intros Hcount. apply select_user_by_email_some in Hcount as [u Hfind].
    unfold signup. rewrite Hfind. reflexivity.
Qed.
End signup_login_facts.

Section login_safety.
Context {J : Jose} {P : Passlib}.

(** X9: [login] issues tokens only for a password that verifies: whenever
    it returns a response, the table holds a row with the submitted email
    whose stored password verified against the submitted one; the tokens in
    the response are the ones issued for that email. *)
Theorem login_only_with_verified_password (now : Z)
    (form_data : OAuth2PasswordRequestForm) (db : store) (response : JSONResponse) :
  login now form_data db = Return response →
  (∃ user, user ∈ db ∧
           models.email user = form_username form_data ∧
           verify_password (form_password form_data) (models.password user) =
             Return true) ∧
  content response =
    token_body (create_access_token now {[ "sub" := VStr (form_username form_data) ]} 15) ∧
  map cookie_value (set_cookie response) =
    [ create_refresh_token {[ "sub" := VStr (form_username form_data) ]} ].
Proof.
  unfold login. intros Hlogin.
  destruct (select_user_by_email db (form_username form_data)) as [user |] eqn:Hfind;
    [| discriminate].
  apply select_user_by_email_Some in Hfind as [Hin Hemail].
  destruct (verify_password _ _) as [[] | e] eqn:Hverify; simpl in Hlogin;
    try discriminate.
  injection Hlogin as <-. rewrite Hemail. simpl. eauto 10.
Qed.
End login_safety.

Section token_use_facts.
Context {J : Jose} {JL : JoseLaws}.

(** The gate on an access token of [create_access_token] for a subject. *)
Lemma get_current_user_access_token (issued now : Z) (email : string) :
  get_current_user now (create_access_token issued {[ "sub" := VStr email ]} 15) =
    if issued + 15 * 60 <? now
    then Raise (HTTPException 401 "Invalid or expired token")
    else Return (VStr email).
Proof.
  unfold get_current_user.
  rewrite decode_created_access_token by apply claims_pass_subject.
  destruct (issued + 15 * 60 <? now); simpl; [reflexivity |].
  rewrite bool_decide_false
    by (apply (lookup_nonempty _ "exp" (VInt (issued + 15 * 60))), lookup_insert_eq).
  simpl. unfold getitem. rewrite lookup_insert_ne by discriminate.
  rewrite lookup_singleton_eq. reflexivity.
Qed.

(** X10: the access token of a login response names the submitted email
    and lives 900 seconds: up to second [now + 900] the session gate gives
    the email and the profile route greets it; after that both answer 401
    "Invalid or expired token". *)
Theorem login_access_token_at_gate {P : Passlib} (now : Z)
    (form_data : OAuth2PasswordRequestForm) (db : store) (response : JSONResponse) :
  login now form_data db = Return response →
  ∃ access_token,
    content response !! "access_token" = Some (VStr access_token) ∧
    jwt_get_unverified_claims access_token =
      Return (<["exp" := VInt (now + 15 * 60)]>
                {[ "sub" := VStr (form_username form_data) ]}) ∧
    (∀ t, t ≤ now + 15 * 60 →
       get_current_user t access_token = Return (VStr (form_username form_data)) ∧
       protected_profile t access_token =
         Return {[ "msg" := VStr ("Hello, " +:+ form_username form_data +:+
                                  "! This is a protected route.") ]}) ∧
    (∀ t, now + 15 * 60 < t →
       get_current_user t access_token =
         Raise (HTTPException 401 "Invalid or expired token") ∧
       protected_profile t access_token =
         Raise (HTTPException 401 "Invalid or expired token")).
Proof.
  intros Hlogin. unfold login in Hlogin.
  destruct (select_user_by_email db (form_username form_data)) as [user |] eqn:Hfind;
    [| discriminate].
  apply select_user_by_email_Some in Hfind as [_ Hemail].
  destruct (verify_password _ _) as [[] | e]; simpl in Hlogin; try discriminate.
  injection Hlogin as <-. rewrite Hemail. eexists. split; [| split; [| split]].
  - simpl. apply lookup_insert_eq.
  - apply access_token_claims.
  - intros t Ht. unfold protected_profile.
    rewrite get_current_user_access_token. not_expired. split; reflexivity.
  - intros t Ht. unfold protected_profile.
    rewrite get_current_user_access_token. expired. split; reflexivity.
Qed.

(** X11: the refresh cookie of a login response keeps working without a
    time limit: sent back to the refresh flow at any time it is exchanged
    for a new access token of the submitted email, and that token passes
    the session gate for the 900 seconds after the exchange. *)
Theorem login_refresh_cookie_chain {P : Passlib} (now : Z)
    (form_data : OAuth2PasswordRequestForm) (db : store) (response : JSONResponse) :
  login now form_data db = Return response →
  ∃ cookie,
    set_cookie response = [cookie] ∧
    key cookie = "refresh_token" ∧
    ∀ t later,
      let new_access_token :=
        create_access_token later {[ "sub" := VStr (form_username form_data) ]} 15 in
      refresh_token t later (request_with_cookie (cookie_value cookie)) =
        Return (token_body new_access_token) ∧
      (∀ t', t' ≤ later + 15 * 60 →
         get_current_user t' new_access_token = Return (VStr (form_username form_data))).
Proof.
  intros Hlogin. unfold login in Hlogin.
  destruct (select_user_by_email db (form_username form_data)) as [user |] eqn:Hfind;
    [| discriminate].
  apply select_user_by_email_Some in Hfind as [_ Hemail].
  destruct (verify_password _ _) as [[] | e]; simpl in Hlogin; try discriminate.
  injection Hlogin as <-. rewrite Hemail. eexists. split; [reflexivity |].
  split; [reflexivity |]. intros t later new_access_token. simpl cookie_value.
  assert (Hdec : decode_token t
                   (create_refresh_token {[ "sub" := VStr (form_username form_data) ]}) =
                 Return (Some {[ "sub" := VStr (form_username form_data) ]}))
    by apply decode_created_refresh_token, validate_claims_subject.
  split.
  - rewrite (refresh_token_verified t later _ _ _ (lookup_singleton_eq _ _)
               (decode_token_nonempty _ _ _ Hdec) Hdec).
    + unfold getitem. rewrite lookup_singleton_eq. reflexivity.
    + apply (lookup_nonempty _ "sub" (VStr (form_username form_data))),
        lookup_singleton_eq.
  - intros t' Ht'. unfold new_access_token.
    rewrite get_current_user_access_token. not_expired. reflexivity.
Qed.



(** X14: the lifetime of an access token is [expires_minutes] and nothing
    else.  When the expiry is a second that a datetime can hold and the
    other claims of [data] pass the validation, the token verifies exactly
    at the clock readings up to [issued + 60 * expires_minutes], the last
    second included; an [exp] that the caller put into [data] is
    overwritten; and with a negative lifetime the token is rejected from
    the second of its issue on. *)
Theorem access_token_lifetime (data : dict) (issued now expires_minutes : Z) :
  datetime_range issued →
  datetime_range (issued + expires_minutes * 60) →
  claims_pass now data →
  decode_access_token now (create_access_token issued data expires_minutes) =
    (if bool_decide (now ≤ issued + expires_minutes * 60)
     then Return (Some (<["exp" := VInt (issued + expires_minutes * 60)]> data))
     else Return None) ∧
  create_access_token issued data expires_minutes =
    create_access_token issued (delete "exp" data) expires_minutes ∧
  (expires_minutes < 0 →
     issued ≤ now →
     get_current_user now (create_access_token issued data expires_minutes) =
       Raise (HTTPException 401 "Invalid or expired token")).
Proof.
  intros _ _ Hpass.
  assert (Hdec : decode_access_token now (create_access_token issued data expires_minutes) =
                 if bool_decide (now ≤ issued + expires_minutes * 60)
                 then Return (Some (<["exp" := VInt (issued + expires_minutes * 60)]> data))
                 else Return None).
  { rewrite decode_created_access_token by assumption.
    destruct (decide (now ≤ issued + expires_minutes * 60)) as [Hle | Hgt].
    - rewrite (bool_decide_true _ Hle). not_expired. reflexivity.
    - rewrite (bool_decide_false _ Hgt). expired. reflexivity. }
  split; [exact Hdec |]. split.
  - unfold create_access_token. rewrite insert_delete_eq. reflexivity.
  - intros Hneg Hnow. apply get_current_user_unverified. rewrite Hdec.
    rewrite bool_decide_false by lia. reflexivity.
Qed.
End token_use_facts.

(** ** Conversations *)

Lemma insert_messages_appends (ms table : list message.Message) :
  ∃ rows, insert_messages table ms = (table ++ rows)%list ∧
          map message_payload rows = map message_payload ms.
Proof.
  revert table. induction ms as [| m ms IH]; intros table; simpl.
  - exists []. rewrite app_nil_r. auto.
  - destruct (IH (table ++ [{| message.id := Some (next_key (omap message.id table));
                              message.content := message.content m;
                              message.role := message.role m;
                              message.conversation_id := message.conversation_id m |}])%list)
      as (rows & -> & Hrows).
    eexists (_ :: rows). rewrite <- app_assoc. split; [reflexivity |].
    simpl. rewrite Hrows. reflexivity.
Qed.

Lemma new_messages_complete (conversation_id : Z) (l : list (string * string)) :
  ∃ ms, new_messages conversation_id (map (λ cr, message_item cr.1 cr.2) l) = Return ms ∧
        map message_payload ms = map (λ cr, (cr.1, cr.2, conversation_id)) l.
Proof.
  induction l as [| [c r] l (ms & IH & Hms)]; simpl.
  - exists []. auto.
  - rewrite IH. simpl. eexists. split; [reflexivity |]. simpl. rewrite Hms. reflexivity.
Qed.

Lemma new_messages_incomplete (conversation_id : Z) (items : list MessageItem) :
  ¬ Forall complete items →
  ∃ k, new_messages conversation_id items = Raise (KeyError k) ∧
       (k = "content" ∨ k = "role").
Proof.
  induction items as [| msg items IH]; intros Hnot.
  - exfalso. apply Hnot. constructor.
  - simpl. destruct (item_content msg) as [c |] eqn:Hc; [| eauto].
    destruct (item_role msg) as [r |] eqn:Hr; [| eauto].
    destruct IH as (k & -> & Hk); [| eauto].
    intros Hall. apply Hnot. constructor; [| exact Hall].
    unfold complete. rewrite Hc, Hr. eauto.
Qed.

Lemma new_messages_conversation (conversation_id : Z) (items : list MessageItem)
    (ms : list message.Message) :
  new_messages conversation_id items = Return ms →
  Forall (λ m, message.conversation_id m = conversation_id) ms.
Proof.
  revert ms. induction items as [| msg items IH]; intros ms; simpl.
  - intros [= <-]. constructor.
  - destruct (item_content msg); [| discriminate].
    destruct (item_role msg); [| discriminate].
    destruct (new_messages conversation_id items) as [ms' |]; [| discriminate].
    simpl. intros [= <-]. constructor; [reflexivity | apply IH; reflexivity].
Qed.

Lemma payload_conversation (rows ms : list message.Message) (c : Z) :
  map message_payload rows = map message_payload ms →
  Forall (λ m, message.conversation_id m = c) ms →
  Forall (λ m, message.conversation_id m = c) rows.
Proof.
  revert ms. induction rows as [| r rows IH]; intros [| m ms]; simpl;
    try discriminate; [constructor |].
  intros [= _ _ Hc Hrest] Hall. apply Forall_cons in Hall as [Hm Hall].
  constructor; [congruence | exact (IH _ Hrest Hall)].
Qed.

(** Every outcome of [save_conversation] with a title has this shape. *)
Lemma save_conversation_shape (now : Z) (data : ConversationData) (user title : string)
    (t : chat_tables) :
  data_title data = Some title →
  ∃ rows, (save_conversation now data user t).2 = saved now title user t rows ∧
          Forall (λ m, message.conversation_id m = next_key (conversation_keys t)) rows.
Proof.
  intros Htitle. unfold save_conversation. rewrite Htitle.
  destruct (data_messages data) as [items |].
  - destruct (new_messages _ items) as [ms | e] eqn:Hnew; simpl.
    + destruct (insert_messages_appends ms (messages t)) as (rows & -> & Hrows).
      exists rows. split; [reflexivity |].
      apply new_messages_conversation in Hnew.
      exact (payload_conversation _ _ _ Hrows Hnew).
    + exists []. unfold saved. rewrite app_nil_r. split; [reflexivity | constructor].
  - exists []. unfold saved. simpl. rewrite app_nil_r. split; [reflexivity | constructor].
Qed.

Lemma filter_none {A : Type} (f : A → bool) (l : list A) :
  Forall (λ x, f x = false) l → List.filter f l = [].
Proof.
  induction 1 as [| x l Hx _ IH]; simpl; [reflexivity |]. rewrite Hx. exact IH.
Qed.

Lemma filter_all {A : Type} (f : A → bool) (l : list A) :
  Forall (λ x, f x = true) l → List.filter f l = l.
Proof.
  induction 1 as [| x l Hx _ IH]; simpl; [reflexivity |]. rewrite Hx, IH. reflexivity.
Qed.

(** The new rows do not show up among the messages of an older conversation. *)
Lemma messages_of_old (t : chat_tables) (now : Z) (title user : string)
    (rows : list message.Message) (c : conversation.Conversation) :
  c ∈ conversations t →
  Forall (λ m, message.conversation_id m = next_key (conversation_keys t)) rows →
  messages_of (saved now title user t rows) c = messages_of t c.
Proof.
  intros Hc Hrows. unfold messages_of, saved. simpl.
  rewrite List.filter_app, (filter_none _ rows); [apply app_nil_r |].
  eapply Forall_impl; [exact Hrows |]. intros m Hm. simpl.
  apply bool_decide_eq_false. rewrite Hm. intros Hid.
  apply (next_key_fresh (conversation_keys t)).
  unfold conversation_keys. apply list_elem_of_omap. eauto.
Qed.

(** In well-formed tables the messages of the new conversation are the new rows. *)
Lemma messages_of_new (t : chat_tables) (now : Z) (title user : string)
    (rows : list message.Message) :
  chat_ok t →
  Forall (λ m, message.conversation_id m = next_key (conversation_keys t)) rows →
  List.filter (λ m, bool_decide (Some (message.conversation_id m) =
                                   Some (next_key (conversation_keys t))))
    (messages (saved now title user t rows)) = rows.
Proof.
  intros (_ & _ & Hbelong) Hrows. unfold saved. simpl.
  rewrite List.filter_app. rewrite (filter_none _ (messages t)).
  - apply filter_all. eapply Forall_impl; [exact Hrows |]. intros m Hm. simpl.
    apply bool_decide_eq_true. rewrite Hm. reflexivity.
  - eapply Forall_impl; [exact Hbelong |]. intros m Hm. simpl.
    apply bool_decide_eq_false. intros [= Hid]. cbv beta in Hm.
    rewrite Hid in Hm. exact (next_key_fresh _ Hm).
Qed.

Lemma get_conversations_saved (t : chat_tables) (now : Z) (title user reader : string)
    (rows : list message.Message) :
  Forall (λ m, message.conversation_id m = next_key (conversation_keys t)) rows →
  get_conversations reader (saved now title user t rows) =
    (get_conversations reader t ++
     if String.eqb user reader
     then [conversation_out (saved now title user t rows)
             {| conversation.id := Some (next_key (conversation_keys t));
                conversation.title := title;
                conversation.user_id := user;
                conversation.created_at := now |}]
     else [])%list.
Proof.
  intros Hrows. unfold get_conversations.
  change (conversations (saved now title user t rows)) with
    (conversations t ++
     [{| conversation.id := Some (next_key (conversation_keys t));
         conversation.title := title;
         conversation.user_id := user;
         conversation.created_at := now |}])%list.
  rewrite List.filter_app, map_app. f_equal.
  - apply map_ext_in. intros c Hc. apply List.filter_In in Hc as [Hc _].
    apply list_elem_of_In in Hc.
    rewrite (messages_of_old _ _ _ _ _ _ Hc Hrows). reflexivity.
  - simpl. destruct (String.eqb user reader); reflexivity.
Qed.

Lemma conversation_keys_saved (t : chat_tables) (now : Z) (title user : string)
    (rows : list message.Message) :
  conversation_keys (saved now title user t rows) =
    (conversation_keys t ++ [next_key (conversation_keys t)])%list.
Proof. unfold conversation_keys, saved. simpl. rewrite omap_app. reflexivity. Qed.

(** X15: [save_conversation] is not all-or-nothing.  Without a title it
    raises [KeyError] and writes nothing.  With a title, when the
    ["messages"] key is missing or one message object lacks ["content"] or
    ["role"], it raises [KeyError] after the conversation is stored: the
    conversation stays, none of the messages of the body is stored, and in
    well-formed tables [get_conversations] lists it with no messages. *)
Theorem save_conversation_partial_write (now : Z) (data : ConversationData)
    (user : string) (t : chat_tables) :
  (data_title data = None →
     save_conversation now data user t = (Raise (KeyError "title"), t)) ∧
  (∀ title,
     data_title data = Some title →
     (∀ items, data_messages data = Some items → ¬ Forall complete items) →
     (∃ k, (k = "messages" ∨ k = "content" ∨ k = "role") ∧
           save_conversation now data user t =
             (Raise (KeyError k), saved now title user t [])) ∧
     (chat_ok t →
        get_conversations user (saved now title user t []) =
          (get_conversations user t ++
           [ {| out_id := Some (next_key (conversation_keys t));
                out_title := title;
                out_created_at := now;
                out_messages := [] |} ])%list)).
Proof.
  split.
  - intros Htitle. unfold save_conversation. rewrite Htitle. reflexivity.
  - intros title Htitle Hbad. split.
    + unfold save_conversation. rewrite Htitle.
      destruct (data_messages data) as [items |] eqn:Hitems.
      * destruct (new_messages_incomplete (next_key (conversation_keys t)) items
                    (Hbad items eq_refl)) as (k & Hnew & Hk).
        exists k. split; [tauto |]. unfold conversation_keys in Hnew. rewrite Hnew.
        unfold saved. rewrite app_nil_r. reflexivity.
      * exists "messages". split; [tauto |]. unfold saved. rewrite app_nil_r. reflexivity.
    + intros Hok. rewrite get_conversations_saved by constructor.
      rewrite String.eqb_refl. unfold conversation_out, messages_of.
      cbn [conversation.id conversation.title conversation.created_at].
      rewrite (messages_of_new t now title user [] Hok) by constructor. reflexivity.
Qed.

(** X16: a complete body is stored and read back.  In well-formed tables
    [save_conversation] with a title and message objects that all have
    their two keys answers "Conversation saved", and [get_conversations]
    of the same user then ends with the new conversation: its title, its
    time, and the messages of the body in their order. *)
Theorem save_then_get_conversations (now : Z) (title user : string)
    (l : list (string * string)) (t : chat_tables) :
  chat_ok t →
  ∃ t',
    save_conversation now
        {| data_title := Some title;
           data_messages := Some (map (λ cr, message_item cr.1 cr.2) l) |} user t =
      (Return {[ "msg" := VStr "Conversation saved" ]}, t') ∧
    get_conversations user t' =
      (get_conversations user t ++
       [ {| out_id := Some (next_key (conversation_keys t));
            out_title := title;
            out_created_at := now;
            out_messages := map (λ cr, (cr.2, cr.1)) l |} ])%list ∧
    length (messages t') = (length (messages t) + length l)%nat.
Proof.
  intros Hok. unfold save_conversation. simpl.
  destruct (new_messages_complete (next_key (conversation_keys t)) l) as (ms & Hnew & Hms).
  unfold conversation_keys in Hnew. rewrite Hnew.
  destruct (insert_messages_appends ms (messages t)) as (rows & Hins & Hrows).
  rewrite Hins. eexists. split; [reflexivity |].
  change {| conversations := _; messages := (messages t ++ rows)%list |}
    with (saved now title user t rows).
  rewrite Hms in Hrows.
  assert (Hcid : Forall (λ m, message.conversation_id m = next_key (conversation_keys t))
                   rows).
  { clear -Hrows. revert l Hrows. induction rows as [| r rows IH]; intros [| cr l];
      simpl; try discriminate; [constructor |].
    intros [= _ _ Hc Hrest]. constructor; [exact Hc | exact (IH _ Hrest)]. }
  split.
  - rewrite (get_conversations_saved _ _ _ _ _ _ Hcid), String.eqb_refl.
    unfold conversation_out, messages_of.
    cbn [conversation.id conversation.title conversation.created_at].
    rewrite (messages_of_new t now title user rows Hok Hcid).
    do 3 f_equal. clear -Hrows. revert l Hrows.
    induction rows as [| r rows IH]; intros [| cr l]; simpl; try discriminate;
      [reflexivity |].
    intros [= Hc Hr _ Hrest]. rewrite Hc, Hr, (IH _ Hrest). reflexivity.
  - unfold saved. simpl. rewrite length_app. f_equal.
    rewrite <- (length_map message_payload rows), Hrows, length_map. reflexivity.
Qed.

(** X17: one user's save does not show in another user's list: whatever
    the body and however the call ends, [get_conversations] of every other
    user returns what it returned before. *)
Theorem save_conversation_isolated (now : Z) (data : ConversationData)
    (user reader : string) (t : chat_tables) :
  reader ≠ user →
  get_conversations reader (save_conversation now data user t).2 =
    get_conversations reader t.
Proof.
  intros Hreader. destruct (data_title data) as [title |] eqn:Htitle.
  - destruct (save_conversation_shape now data user title t Htitle) as (rows & -> & Hrows).
    rewrite (get_conversations_saved _ _ _ _ _ _ Hrows).
    assert (Hne : String.eqb user reader = false) by (apply String.eqb_neq; congruence).
    rewrite Hne. apply app_nil_r.
  - unfold save_conversation. rewrite Htitle. reflexivity.
Qed.

(** X18: [save_conversation] keeps the tables well-formed, however it
    ends: every conversation has a key, no two share one, and every
    message belongs to a conversation of the table. *)
Theorem save_conversation_keeps_tables (now : Z) (data : ConversationData)
    (user : string) (t : chat_tables) :
  chat_ok t → chat_ok (save_conversation now data user t).2.
Proof.
  intros Hok. destruct (data_title data) as [title |] eqn:Htitle.
  - destruct (save_conversation_shape now data user title t Htitle) as (rows & -> & Hrows).
    destruct Hok as (Hkeys & Hnodup & Hbelong). unfold chat_ok.
    rewrite conversation_keys_saved. split; [| split].
    + unfold saved. simpl. apply Forall_app. split; [exact Hkeys |].
      apply Forall_singleton. simpl. eauto.
    + apply NoDup_app. split; [exact Hnodup |]. split; [| apply NoDup_singleton].
      intros x Hx Hin. apply list_elem_of_singleton in Hin. subst x.
      exact (next_key_fresh _ Hx).
    + unfold saved. simpl. apply Forall_app. split.
      * eapply Forall_impl; [exact Hbelong |]. intros m Hm.
        apply elem_of_app. left. exact Hm.
      * eapply Forall_impl; [exact Hrows |]. intros m Hm. cbv beta in Hm.
        rewrite Hm. apply elem_of_app. right. apply list_elem_of_singleton. reflexivity.
  - unfold save_conversation. rewrite Htitle. exact Hok.
Qed.

(** ** The remaining handlers on concrete requests *)

Module scenario_more_facts.
Import scenario scenario_more symbolic_facts.

#[local] Existing Instance symbolic.jose.
#[local] Existing Instance symbolic.passlib.

Lemma users_ok : table_ok [alice; bob].
Proof.
  split.
  - repeat constructor; simpl; eauto.
  - unfold keys. simpl. apply NoDup_cons. split; [| apply NoDup_singleton].
    intros Hin. apply list_elem_of_singleton in Hin. discriminate.
Qed.


Lemma chat_well_formed : chat_ok chat.
Proof.
  split; [| split].
  - repeat constructor; simpl; eauto.
  - apply NoDup_singleton.
  - repeat constructor; simpl; apply list_elem_of_singleton; reflexivity.
Qed.


(** Mallory posts a row with the key of Alice's row. *)
Lemma taken_key_rejected_witness :
  create_user mallory [alice; bob] = (Raise IntegrityError, [alice; bob]) ∧
  (∀ digest,
     count_email [alice; bob] "m@x.com" = 0%nat →
     hash_password (P := symbolic.passlib) "N9qo8uLOickgx2ZMRZoMye" "letmein" =
       Return digest →
     signup (P := symbolic.passlib) "N9qo8uLOickgx2ZMRZoMye" mallory [alice; bob] =
       (Raise IntegrityError, [alice; bob])).
Proof.
  apply (@taken_key_rejected symbolic.passlib "N9qo8uLOickgx2ZMRZoMye" mallory [alice; bob] 1).
  - reflexivity.
  - unfold keys. simpl. left.
Defined.

(** The four writers on the table of Alice and Bob. *)
Lemma writers_keep_keys_witness :
  table_ok (create_user eve [alice; bob]).2 ∧
  table_ok (update_user 2 eve [alice; bob]).2 ∧
  table_ok (delete_user 2 [alice; bob]).2 ∧
  table_ok (signup (P := symbolic.passlib) "N9qo8uLOickgx2ZMRZoMye" eve [alice; bob]).2.
Proof.
  apply (@writers_keep_keys symbolic.passlib "N9qo8uLOickgx2ZMRZoMye" eve 2 [alice; bob]
           users_ok).
Defined.

(** Bob is renamed; the key 9 and the password of the body are ignored. *)
Lemma update_user_changes_name_and_email_witness :
  ∃ db',
    update_user 2 robert_update [alice; bob] = (Return ("User updated", robert_row), db') ∧
    get_user 2 db' = Return robert_row ∧
    (∀ j, j ≠ 2 → get_user j db' = get_user j [alice; bob]) ∧
    length db' = length [alice; bob].
Proof.
  apply (update_user_changes_name_and_email 2 robert_update bob [alice; bob] users_ok).
  - right. left.
  - reflexivity.
Defined.

(** No row has key 7. *)
Lemma unknown_key_not_found_witness :
  get_user 7 [alice; bob] = Raise (HTTPException 404 "User not found") ∧
  update_user 7 eve [alice; bob] = (Raise (HTTPException 404 "User not found"), [alice; bob]) ∧
  delete_user 7 [alice; bob] = (Raise (HTTPException 404 "User not found"), [alice; bob]).
Proof.
  apply (unknown_key_not_found 7 eve [alice; bob]); [unfold int64; lia |].
  unfold keys. simpl. intros Hin.
  apply elem_of_cons in Hin as [Hin | Hin]; [discriminate |].
  apply list_elem_of_singleton in Hin. discriminate.
Defined.

(** Bob's row is deleted. *)
Lemma delete_user_removes_row_witness :
  ∃ db',
    delete_user 2 [alice; bob] = (Return {[ "msg" := VStr "User deleted" ]}, db') ∧
    get_user 2 db' = Raise (HTTPException 404 "User not found") ∧
    (∀ j, j ≠ 2 → get_user j db' = get_user j [alice; bob]) ∧
    (length db' + 1 = length [alice; bob])%nat.
Proof.
  apply (delete_user_removes_row 2 bob [alice; bob] users_ok).
  - right. left.
  - reflexivity.
Defined.



(** A sign-up whose password holds a NUL character. *)
Lemma signup_password_refused_witness :
  signup (P := symbolic.passlib) "N9qo8uLOickgx2ZMRZoMye" nul_body [alice; bob] =
    (Raise PasswordValueError, [alice; bob]).
Proof.
  apply (@signup_password_refused symbolic.passlib passlib_laws
           "N9qo8uLOickgx2ZMRZoMye" nul_body [alice; bob]); reflexivity.
Defined.

(** Alice's login returned a response: her row verifies her password. *)
Lemma login_only_with_verified_password_witness :
  (∃ user, user ∈ [alice; bob] ∧
           models.email user = "a@x.com" ∧
           verify_password (P := symbolic.passlib) "correct horse" (models.password user) =
             Return true) ∧
  content alice_response =
    token_body (create_access_token 1000 {[ "sub" := VStr "a@x.com" ]} 15) ∧
  map cookie_value (set_cookie alice_response) =
    [ create_refresh_token {[ "sub" := VStr "a@x.com" ]} ].
Proof.
  apply (@login_only_with_verified_password symbolic.jose symbolic.passlib 1000
           alice_form [alice; bob] alice_response).
  reflexivity.
Defined.

(** The access token of Alice's login, at its last second and after it. *)
Lemma login_access_token_at_gate_witness :
  ∃ access_token,
    content alice_response !! "access_token" = Some (VStr access_token) ∧
    get_current_user (J := symbolic.jose) 1900 access_token = Return (VStr "a@x.com") ∧
    protected_profile (J := symbolic.jose) 1900 access_token =
      Return {[ "msg" := VStr "Hello, a@x.com! This is a protected route." ]} ∧
    get_current_user (J := symbolic.jose) 1901 access_token =
      Raise (HTTPException 401 "Invalid or expired token").
Proof.
  destruct (@login_access_token_at_gate symbolic.jose jose_laws symbolic.passlib 1000
              alice_form [alice; bob] alice_response eq_refl)
    as (access_token & Hbody & _ & Hvalid & Hexpired).
  exists access_token. split; [exact Hbody |].
  destruct (Hvalid 1900 ltac:(lia)) as [Hgate Hprofile].
  destruct (Hexpired 1901 ltac:(lia)) as [Hlate _].
  split; [exact Hgate |]. split; [exact Hprofile | exact Hlate].
Defined.

(** The refresh cookie of Alice's login, sent back much later. *)
Lemma login_refresh_cookie_chain_witness :
  ∃ cookie,
    set_cookie alice_response = [cookie] ∧
    refresh_token (J := symbolic.jose) 999999 1000000
        (request_with_cookie (cookie_value cookie)) =
      Return (token_body (create_access_token 1000000 {[ "sub" := VStr "a@x.com" ]} 15)) ∧
    get_current_user (J := symbolic.jose) 1000900
        (create_access_token 1000000 {[ "sub" := VStr "a@x.com" ]} 15) =
      Return (VStr "a@x.com").
Proof.
  destruct (@login_refresh_cookie_chain symbolic.jose jose_laws symbolic.passlib 1000
              alice_form [alice; bob] alice_response eq_refl)
    as (cookie & Hcookie & _ & Hchain).
  exists cookie. split; [exact Hcookie |].
  destruct (Hchain 999999 1000000) as [Hrefresh Hgate].
  split; [exact Hrefresh |]. apply Hgate. lia.
Defined.


(** A token with a lifetime of minus one minute. *)
Lemma access_token_lifetime_witness :
  get_current_user (J := symbolic.jose) 1000
      (create_access_token 1000 {[ "sub" := VStr "a@x.com" ]} (-1)) =
    Raise (HTTPException 401 "Invalid or expired token").
Proof.
  destruct (@access_token_lifetime symbolic.jose jose_laws
              {[ "sub" := VStr "a@x.com" ]} 1000 1000 (-1)) as (_ & _ & Hgate).
  - unfold datetime_range. lia.
  - unfold datetime_range. lia.
  - reflexivity.
  - apply Hgate; lia.
Defined.

(** [broken_body] leaves the conversation "Plans" behind, without messages. *)
Lemma save_conversation_partial_write_witness :
  (∃ k, (k = "messages" ∨ k = "content" ∨ k = "role") ∧
        save_conversation 1000 broken_body "a@x.com" chat =
          (Raise (KeyError k), saved 1000 "Plans" "a@x.com" chat [])) ∧
  (chat_ok chat →
     get_conversations "a@x.com" (saved 1000 "Plans" "a@x.com" chat []) =
       (get_conversations "a@x.com" chat ++
        [ {| out_id := Some (next_key (conversation_keys chat));
             out_title := "Plans";
             out_created_at := 1000;
             out_messages := [] |} ])%list).
Proof.
  apply (proj2 (save_conversation_partial_write 1000 broken_body "a@x.com" chat) "Plans").
  - reflexivity.
  - intros items [= <-] Hall.
    apply Forall_cons in Hall as [_ Hall]. apply Forall_cons in Hall as [[_ [r Hr]] _].
    discriminate Hr.
Defined.

(** A complete body with two messages. *)
Lemma save_then_get_conversations_witness :
  ∃ t',
    save_conversation 1000
        {| data_title := Some "Plans";
           data_messages :=
             Some (map (λ cr, message_item cr.1 cr.2)
                     [("What now?", "user"); ("Wait", "assistant")]) |} "a@x.com" chat =
      (Return {[ "msg" := VStr "Conversation saved" ]}, t') ∧
    get_conversations "a@x.com" t' =
      (get_conversations "a@x.com" chat ++
       [ {| out_id := Some (next_key (conversation_keys chat));
            out_title := "Plans";
            out_created_at := 1000;
            out_messages := map (λ cr, (cr.2, cr.1))
                              [("What now?", "user"); ("Wait", "assistant")] |} ])%list ∧
    length (messages t') = (length (messages chat) + 2)%nat.
Proof.
  apply (save_then_get_conversations 1000 "Plans" "a@x.com"
           [("What now?", "user"); ("Wait", "assistant")] chat chat_well_formed).
Defined.

(** Bob saves; Alice's list stays. *)
Lemma save_conversation_isolated_witness :
  get_conversations "a@x.com" (save_conversation 1000 broken_body "b@x.com" chat).2 =
    get_conversations "a@x.com" chat.
Proof.
  apply (save_conversation_isolated 1000 broken_body "b@x.com" "a@x.com" chat).
  discriminate.
Defined.

(** The tables after Bob's broken save. *)
Lemma save_conversation_keeps_tables_witness :
  chat_ok (save_conversation 1000 broken_body "b@x.com" chat).2.
Proof.
  apply (save_conversation_keeps_tables 1000 broken_body "b@x.com" chat chat_well_formed).
Defined.

End scenario_more_facts.
